(** * The news core of [util.py]: normalize, dedupe, detect.

    A shallow embedding of [normalize_article], [dedupe_articles] and
    [detect_mutual_fund_mentions], together with the two library functions
    they rest on ([str.encode("utf-8")] and [hashlib.sha256]).

    - A Python [str] is its list of Unicode code points, so that [len],
      slicing, [+], [in] and the ordering used by [sorted] are the list
      operations.
    - A Python [dict] with string keys is a [gmap string value]; the values
      are the JSON-like objects a raw record can hold.
    - A raised exception is the [Raise] branch of [result].
    - [datetime.utcnow().isoformat()] is an explicit clock reading [now].
    - [str.lower] belongs to the Unicode tables of the interpreter; it is a
      section variable, pinned down on ASCII text only where a statement
      needs it. *)

From Stdlib Require Import ZArith NArith List Ascii String Lia Sorting.Sorted.
From stdpp Require Import base option list sorting gmap strings fin_maps.

Local Open Scope Z_scope.

(** ** Python values and exceptions *)

Definition str := list N.

(** The code points of a literal of the source text. *)
Definition py (s : string) : str :=
  map N_of_ascii (list_ascii_of_string s).

Inductive value :=
  | VNone
  | VBool (b : bool)
  | VInt (z : Z)
  | VStr (s : str)
  | VList (l : list str).

Inductive exn := TypeError | AttributeError | UnicodeEncodeError | KeyError.

Inductive result (A : Type) :=
  | Ok (a : A)
  | Raise (e : exn).
Arguments Ok {A} a.
Arguments Raise {A} e.

#[global] Instance result_bind : MBind result := λ A B k r,
  match r with
  | Ok a => k a
  | Raise e => Raise e
  end.

(** Truth value of an object, as [or], [if] and [not] test it. *)
Definition truthy (v : value) : bool :=
  match v with
  | VNone => false
  | VBool b => b
  | VInt z => negb (z =? 0)
  | VStr s => negb (Nat.eqb (length s) 0)
  | VList l => negb (Nat.eqb (length l) 0)
  end.

(** [x or y] *)
Definition por (x y : value) : value := if truthy x then x else y.

(** [d.get(k)] and [d.get(k, default)] *)
Definition dict_get (d : gmap string value) (k : string) : value :=
  default VNone (d !! k).

Definition dict_get_or (d : gmap string value) (k : string) (dflt : value) : value :=
  default dflt (d !! k).

(** [d[k]] *)
Definition subscript (d : gmap string value) (k : string) : result value :=
  match d !! k with
  | Some v => Ok v
  | None => Raise KeyError
  end.

(** [x[:n]] *)
Definition slice_to (n : nat) (v : value) : result value :=
  match v with
  | VStr s => Ok (VStr (take n s))
  | VList l => Ok (VList (take n l))
  | _ => Raise TypeError
  end.

Definition int_like (v : value) : option Z :=
  match v with
  | VBool b => Some (if b then 1 else 0)
  | VInt z => Some z
  | _ => None
  end.

(** [x + y] *)
Definition padd (x y : value) : result value :=
  match x, y with
  | VStr a, VStr b => Ok (VStr (a ++ b))
  | VList a, VList b => Ok (VList (a ++ b))
  | _, _ =>
      match int_like x, int_like y with
      | Some a, Some b => Ok (VInt (a + b))
      | _, _ => Raise TypeError
      end
  end.

(** [len(x)] *)
Definition plen (v : value) : result nat :=
  match v with
  | VStr s => Ok (length s)
  | VList l => Ok (length l)
  | _ => Raise TypeError
  end.

(** ** [str.encode("utf-8")] *)

Definition is_surrogate (c : N) : bool :=
  ((0xD800 <=? c) && (c <=? 0xDFFF))%N.

Definition utf8_cp (c : N) : option (list Z) :=
  let z := Z.of_N c in
  if (c <? 0x80)%N then Some [z]
  else if (c <? 0x800)%N then
    Some [Z.lor 0xC0 (Z.shiftr z 6); Z.lor 0x80 (Z.land z 0x3F)]
  else if (c <? 0x10000)%N then
    if is_surrogate c then None
    else Some [Z.lor 0xE0 (Z.shiftr z 12);
               Z.lor 0x80 (Z.land (Z.shiftr z 6) 0x3F);
               Z.lor 0x80 (Z.land z 0x3F)]
  else if (c <? 0x110000)%N then
    Some [Z.lor 0xF0 (Z.shiftr z 18);
          Z.lor 0x80 (Z.land (Z.shiftr z 12) 0x3F);
          Z.lor 0x80 (Z.land (Z.shiftr z 6) 0x3F);
          Z.lor 0x80 (Z.land z 0x3F)]
  else None.

Fixpoint utf8 (s : str) : option (list Z) :=
  match s with
  | [] => Some []
  | c :: rest =>
      match utf8_cp c, utf8 rest with
      | Some bs, Some more => Some (bs ++ more)
      | _, _ => None
      end
  end.

(** [key.encode("utf-8")] on an arbitrary object *)
Definition encode_utf8 (v : value) : result (list Z) :=
  match v with
  | VStr s =>
      match utf8 s with
      | Some bs => Ok bs
      | None => Raise UnicodeEncodeError
      end
  | _ => Raise AttributeError
  end.

(** ** [hashlib.sha256(...).hexdigest()] (FIPS 180-4) *)

Module Sha256.

Definition w32 (x : Z) : Z := Z.land x 0xFFFFFFFF.
Definition add32 (x y : Z) : Z := w32 (x + y).
Definition rotr (n x : Z) : Z :=
  Z.lor (Z.shiftr x n) (w32 (Z.shiftl x (32 - n))).
Definition not32 (x : Z) : Z := Z.lxor x 0xFFFFFFFF.

Definition Ch (x y z : Z) : Z := Z.lxor (Z.land x y) (Z.land (not32 x) z).
Definition Maj (x y z : Z) : Z :=
  Z.lxor (Z.lxor (Z.land x y) (Z.land x z)) (Z.land y z).
Definition Sigma0 (x : Z) : Z := Z.lxor (Z.lxor (rotr 2 x) (rotr 13 x)) (rotr 22 x).
Definition Sigma1 (x : Z) : Z := Z.lxor (Z.lxor (rotr 6 x) (rotr 11 x)) (rotr 25 x).
Definition sigma0 (x : Z) : Z := Z.lxor (Z.lxor (rotr 7 x) (rotr 18 x)) (Z.shiftr x 3).
Definition sigma1 (x : Z) : Z := Z.lxor (Z.lxor (rotr 17 x) (rotr 19 x)) (Z.shiftr x 10).

(** The round constants are the first 32 bits of the fractional parts of
    the cube roots of the first 64 primes, the initial hash value those of
    the square roots of the first 8. *)
Definition is_prime (n : Z) : bool :=
  forallb (fun d => negb (n mod Z.of_nat d =? 0)) (seq 2 (Z.to_nat n - 2)).

Definition primes : list Z :=
  Eval vm_compute in
    List.filter is_prime (map Z.of_nat (seq 2 310)).

(** The integer cube root of [n < 2^108], bit by bit. *)
Definition cube_root (n : Z) : Z :=
  fold_left (fun r b => let r' := r + 2 ^ Z.of_nat b in
                        if r' * r' * r' <=? n then r' else r)
            (rev (seq 0 36)) 0.

Definition K : list Z :=
  Eval vm_compute in
    map (fun p => (cube_root (p * 2 ^ 96)) mod 2 ^ 32) primes.

Record state := State {
  ha : Z; hb : Z; hc : Z; hd : Z; he : Z; hf : Z; hg : Z; hh : Z }.

Definition H0 : state :=
  Eval vm_compute in
    let w i := Z.sqrt (nth i primes 0 * 2 ^ 64) mod 2 ^ 32 in
    State (w 0%nat) (w 1%nat) (w 2%nat) (w 3%nat)
          (w 4%nat) (w 5%nat) (w 6%nat) (w 7%nat).

(** Message padding: a 1 bit, zeros up to 56 mod 64, then the bit length
    as a big-endian 64-bit integer. *)
Definition be_bytes (n : nat) (x : Z) : list Z :=
  map (fun i => Z.land (Z.shiftr x (8 * Z.of_nat i)) 0xFF) (rev (seq 0 n)).

Definition pad (msg : list Z) : list Z :=
  let len := Z.of_nat (length msg) in
  let zeros := Z.to_nat ((55 - len) mod 64) in
  msg ++ [0x80] ++ repeat 0 zeros ++ be_bytes 8 (8 * len).

Fixpoint be_words (n : nat) (bs : list Z) : list Z :=
  match n, bs with
  | S n', b0 :: b1 :: b2 :: b3 :: rest =>
      (Z.shiftl b0 24 + Z.shiftl b1 16 + Z.shiftl b2 8 + b3) :: be_words n' rest
  | _, _ => []
  end.

(** The message schedule, newest word first. *)
Fixpoint extend (n : nat) (rw : list Z) : list Z :=
  match n with
  | O => rw
  | S n' =>
      let w := add32 (add32 (sigma1 (nth 1 rw 0)) (nth 6 rw 0))
                     (add32 (sigma0 (nth 14 rw 0)) (nth 15 rw 0)) in
      extend n' (w :: rw)
  end.

Definition schedule (block : list Z) : list Z :=
  rev (extend 48 (rev (be_words 16 block))).

Definition round (s : state) (kw : Z * Z) : state :=
  let t1 := add32 (add32 (add32 (hh s) (Sigma1 (he s))) (Ch (he s) (hf s) (hg s)))
                  (add32 (fst kw) (snd kw)) in
  let t2 := add32 (Sigma0 (ha s)) (Maj (ha s) (hb s) (hc s)) in
  State (add32 t1 t2) (ha s) (hb s) (hc s) (add32 (hd s) t1) (he s) (hf s) (hg s).

Definition compress (s : state) (block : list Z) : state :=
  let r := fold_left round (combine K (schedule block)) s in
  State (add32 (ha s) (ha r)) (add32 (hb s) (hb r)) (add32 (hc s) (hc r))
        (add32 (hd s) (hd r)) (add32 (he s) (he r)) (add32 (hf s) (hf r))
        (add32 (hg s) (hg r)) (add32 (hh s) (hh r)).

Fixpoint blocks (n : nat) (s : state) (bs : list Z) : state :=
  match n with
  | O => s
  | S n' => blocks n' (compress s (take 64 bs)) (drop 64 bs)
  end.

Definition digest (msg : list Z) : state :=
  let p := pad msg in
  blocks (length p / 64) H0 p.

(** Lowercase hexadecimal rendering. *)
Definition hex_digit (d : Z) : N :=
  if d <? 10 then Z.to_N (48 + d) else Z.to_N (87 + d).

Definition nibble (x : Z) (i : nat) : Z :=
  Z.land (Z.shiftr x (4 * Z.of_nat i)) 0xF.

Definition hex_word (x : Z) : str :=
  map (fun i => hex_digit (nibble x i)) [7; 6; 5; 4; 3; 2; 1; 0]%nat.

Definition hex_state (s : state) : str :=
  hex_word (ha s) ++ hex_word (hb s) ++ hex_word (hc s) ++ hex_word (hd s) ++
  hex_word (he s) ++ hex_word (hf s) ++ hex_word (hg s) ++ hex_word (hh s).

Definition hexdigest (msg : list Z) : str := hex_state (digest msg).

End Sha256.

(** ** [normalize_article] *)

Definition empty_str : value := VStr [].

(** The right-hand sides of the assignments of [normalize_article], as
    functions of the raw record. *)
Definition title_of (a : gmap string value) : value :=
  por (por (dict_get a "title") (dict_get a "headline")) empty_str.

Definition description_of (a : gmap string value) : value :=
  por (dict_get a "description") empty_str.

Definition content_of (a : gmap string value) : value :=
  por (por (dict_get a "content") (dict_get a "snippet")) (description_of a).

Definition source_url_of (a : gmap string value) : value :=
  por (por (dict_get a "url") (dict_get a "link")) empty_str.

Definition published_of (now : str) (a : gmap string value) : value :=
  por (por (dict_get a "published") (dict_get a "publishedAt")) (VStr now).

Definition source_of (a : gmap string value) (source : value) : value :=
  por (por (dict_get a "source") source) empty_str.

(** [x[:300] + "..."] *)
Definition cut (v : value) : result value :=
  s ← slice_to 300 v; padd s (VStr (py "...")).

Definition normalize_article (now : str) (a : gmap string value) (source : value)
  : result (gmap string value) :=
  let out : gmap string value := ∅ in
  let out := <["title" := title_of a]> out in
  let out := <["description" := description_of a]> out in
  let out := <["content" := content_of a]> out in
  let out := <["source_url" := source_url_of a]> out in
  let out := <["published" := published_of now a]> out in
  let out := <["source" := source_of a source]> out in
  summary ← (if truthy (description_of a) then cut (description_of a)
             else cut (content_of a));
  let out := <["summary" := summary]> out in
  key ← padd (por (title_of a) empty_str) (por (source_url_of a) empty_str);
  bytes ← encode_utf8 key;
  let out := <["id" := VStr (Sha256.hexdigest bytes)]> out in
  Ok out.

(** ** [dedupe_articles] *)

#[global] Instance value_eq_dec : EqDecision value.
Proof. solve_decision. Defined.

(** The dictionary [seen]: insertion-ordered, keyed by the [id] objects. *)
Fixpoint seen_get (seen : list (value * gmap string value)) (k : value)
  : option (gmap string value) :=
  match seen with
  | [] => None
  | (k', v) :: rest => if decide (k = k') then Some v else seen_get rest k
  end.

Fixpoint seen_set (seen : list (value * gmap string value)) (k : value)
    (v : gmap string value) : list (value * gmap string value) :=
  match seen with
  | [] => [(k, v)]
  | (k', v') :: rest =>
      if decide (k = k') then (k, v) :: rest else (k', v') :: seen_set rest k v
  end.

(** [len(d.get("content","") or "")] *)
Definition content_len (d : gmap string value) : result nat :=
  plen (por (dict_get_or d "content" empty_str) empty_str).

(** One iteration of the loop body, for the record [a] read at clock
    reading [now]. *)
Definition dedupe_step (now : str) (seen : list (value * gmap string value))
    (a : gmap string value) : result (list (value * gmap string value)) :=
  norm ← normalize_article now a (dict_get a "source");
  key ← subscript norm "id";
  match seen_get seen key with
  | None => Ok (seen_set seen key norm)
  | Some existing =>
      if bool_decide (existing = ∅) then Ok (seen_set seen key norm)
      else
        existing_content_len ← content_len existing;
        new_content_len ← content_len norm;
        if (existing_content_len <? new_content_len)%nat
        then Ok (seen_set seen key norm)
        else Ok seen
  end.

(** The loop; [clock i] is what [datetime.utcnow().isoformat()] returns
    while the record at position [i] is normalized. *)
Fixpoint dedupe_loop (clock : nat → str) (i : nat)
    (seen : list (value * gmap string value))
    (articles : list (gmap string value))
  : result (list (value * gmap string value)) :=
  match articles with
  | [] => Ok seen
  | a :: rest =>
      seen' ← dedupe_step (clock i) seen a;
      dedupe_loop clock (S i) seen' rest
  end.

Definition dedupe_articles (clock : nat → str) (articles : list (gmap string value))
  : result (list (gmap string value)) :=
  seen ← dedupe_loop clock 0 [] articles;
  Ok (map snd seen).

(** ** [detect_mutual_fund_mentions] *)

(** [sep.join(parts)] *)
Fixpoint str_join (sep : str) (parts : list value) : result str :=
  match parts with
  | [] => Ok []
  | [VStr s] => Ok s
  | VStr s :: rest => r ← str_join sep rest; Ok (s ++ sep ++ r)
  | _ :: _ => Raise TypeError
  end.

(** [needle in hay] on strings *)
Fixpoint starts_with (p s : str) : bool :=
  match p, s with
  | [], _ => true
  | _ :: _, [] => false
  | x :: p', y :: s' => (x =? y)%N && starts_with p' s'
  end.

Fixpoint contains (needle hay : str) : bool :=
  starts_with needle hay ||
  match hay with
  | [] => false
  | _ :: t => contains needle t
  end.

(** The order of [str]: lexicographic on code points. *)
Fixpoint str_leb (a b : str) : bool :=
  match a, b with
  | [], _ => true
  | _ :: _, [] => false
  | x :: a', y :: b' =>
      if (x <? y)%N then true
      else if (x =? y)%N then str_leb a' b' else false
  end.

Definition str_le (a b : str) : Prop := str_leb a b = true.

#[global] Instance str_le_dec : RelDecision str_le.
Proof. intros a b. unfold str_le. solve_decision. Defined.

(** [sorted(list(set(found)))]. The iteration order of a set is not fixed
    by the language; [remove_dups] is one such order, and the sorted result
    is the same for every other (see [sorted_set_unique]). *)
Definition sorted_set (found : list str) : list str :=
  merge_sort str_le (remove_dups found).

(** The case mapping of the Basic Latin block. *)
Definition ascii_lower_cp (c : N) : N :=
  if ((65 <=? c) && (c <=? 90))%N then (c + 32)%N else c.

Definition ascii_lower (s : str) : str := map ascii_lower_cp s.

Definition is_ascii (s : str) : Prop := Forall (λ c, (c < 128)%N) s.

Section Detector.

(** [str.lower] *)
Variable lower : str → str.

Definition detect_mutual_fund_mentions (article : gmap string value)
    (mf_list : list str) : result (list str) :=
  joined ← str_join (py " ")
    [dict_get_or article "title" empty_str;
     dict_get_or article "description" empty_str;
     dict_get_or article "content" empty_str];
  let text := lower joined in
  let found :=
    fold_left (λ found mf,
                 if contains (lower mf) text then found ++ [mf] else found)
              mf_list [] in
  Ok (sorted_set found).

(** The fetch session of [app.py] (lines 55 to 81). Each fetched record is
    normalized with the label of its channel, annotated with the names
    detected in it, and appended to [all_articles]; an exception leaves the
    loop of that channel with what was appended before it. *)
Definition annotate (now label : str) (mf_list : list str)
    (a : gmap string value) : result (gmap string value) :=
  a_norm ← normalize_article now a (VStr label);
  mentions ← detect_mutual_fund_mentions a_norm mf_list;
  Ok (<["source_detected_mf" := VList mentions]> a_norm).

Fixpoint collect (clock : nat → str) (i : nat) (label : str)
    (mf_list : list str) (fetched all_articles : list (gmap string value))
  : list (gmap string value) :=
  match fetched with
  | [] => all_articles
  | a :: rest =>
      match annotate (clock i) label mf_list a with
      | Ok a_norm => collect clock (S i) label mf_list rest (all_articles ++ [a_norm])
      | Raise _ => all_articles
      end
  end.

(** [n_articles] and [g_articles] are what the two fetchers returned
    (nothing, for a channel that is switched off or failed); each stage reads
    its own clock. *)
Definition fetch_session (clock_n clock_g clock_d : nat → str)
    (mf_list : list str) (n_articles g_articles : list (gmap string value))
  : result (list (gmap string value)) :=
  let all_articles := collect clock_n 0 (py "NewsAPI") mf_list n_articles [] in
  let all_articles :=
    collect clock_g 0 (py "GoogleNewsRSS") mf_list g_articles all_articles in
  dedupe_articles clock_d all_articles.

End Detector.

(** ** Vocabulary of the statements *)

(** A field that is absent, [None] or a string. *)
Definition is_text (v : value) : bool :=
  match v with
  | VNone | VStr _ => true
  | _ => false
  end.

(** The keys [normalize_article] reads into text fields. *)
Definition text_keys : list string :=
  ["title"; "headline"; "description"; "content"; "snippet"; "url"; "link"].

Definition typed_record (a : gmap string value) : Prop :=
  ∀ k, k ∈ text_keys → is_text (dict_get a k) = true.

(** Code points that UTF-8 can encode: everything but the surrogates. *)
Definition is_scalar (c : N) : bool :=
  ((c <? 0xD800) || ((0xDFFF <? c) && (c <? 0x110000)))%N.

Definition encodable (s : str) : Prop := Forall (λ c, is_scalar c = true) s.

(** The text of a field holding a string, and nothing for other objects. *)
Definition text_of (v : value) : str :=
  match v with
  | VStr s => s
  | _ => []
  end.

(** The raw records the theorems range over: text fields, and a title and
    link that UTF-8 can encode. *)
Definition raw_ok (a : gmap string value) : Prop :=
  typed_record a ∧
  encodable (text_of (title_of a) ++ text_of (source_url_of a)).

(** The keys of an Article. *)
Definition article_keys : gset string :=
  list_to_set ["title"; "description"; "content"; "source_url"; "published";
               "source"; "summary"; "id"].

Definition field (d : gmap string value) (k : string) : str :=
  text_of (dict_get d k).

Definition is_hex_lower (c : N) : bool :=
  (((48 <=? c) && (c <=? 57)) || ((97 <=? c) && (c <=? 102)))%N.

(** [needle] occurs in [hay]. *)
Definition occurs_in (needle hay : str) : Prop :=
  ∃ pre post, hay = pre ++ needle ++ post.

(** The object [normalize_article] truncates into the summary. *)
Definition summary_source (a : gmap string value) : value :=
  if truthy (description_of a) then description_of a else content_of a.

(** The dictionary [out] once all eight keys are assigned. *)
Definition article (title description content source_url published source
    summary id : value) : gmap string value :=
  <["id" := id]> (<["summary" := summary]> (<["source" := source]>
  (<["published" := published]> (<["source_url" := source_url]>
  (<["content" := content]> (<["description" := description]>
  (<["title" := title]> ∅))))))).

(** ** Vocabulary for the deduplicator *)

Definition rid (r : gmap string value) : value := dict_get r "id".

Definition clen (r : gmap string value) : nat := length (field r "content").

(** What the loop relies on in a normalized record: it is a non-empty
    dictionary whose [content] is a string. *)
Definition article_like (r : gmap string value) : Prop :=
  r ≠ ∅ ∧ (∃ i, r !! "id" = Some i) ∧ ∃ c, r !! "content" = Some (VStr c).

(** The loop body on a record already normalized to [norm]. *)
Definition keep (seen : list (value * gmap string value))
    (norm : gmap string value) : list (value * gmap string value) :=
  match seen_get seen (rid norm) with
  | None => seen_set seen (rid norm) norm
  | Some existing =>
      if (clen existing <? clen norm)%nat
      then seen_set seen (rid norm) norm
      else seen
  end.

(** [r] is, among the records of [norms] with its [id], the first one of
    greatest content length. *)
Definition first_longest (norms : list (gmap string value))
    (r : gmap string value) : Prop :=
  ∃ i, norms !! i = Some r ∧
       ∀ j n, norms !! j = Some n → rid n = rid r →
              (clen n ≤ clen r)%nat ∧ (j < i → clen n < clen r)%nat.

(** The loop invariant: [seen] after the records [norms]. *)
Definition seen_inv (seen : list (value * gmap string value))
    (norms : list (gmap string value)) : Prop :=
  NoDup seen.*1 ∧
  (∀ k r, (k, r) ∈ seen → article_like r ∧ rid r = k ∧ first_longest norms r) ∧
  (∀ n, n ∈ norms → rid n ∈ seen.*1).

(** [norms] are the normalized forms of [articles], the record at position
    [j] being read at clock reading [clock (i + j)]. *)
Definition normalized (clock : nat → str) (i : nat)
    (articles norms : list (gmap string value)) : Prop :=
  length norms = length articles ∧
  ∀ j a, articles !! j = Some a →
    ∃ n, norms !! j = Some n ∧
         normalize_article (clock (i + j)%nat) a (dict_get a "source") = Ok n.

(** [raw_ok], decided. *)
Definition raw_okb (a : gmap string value) : bool :=
  forallb (λ k, is_text (dict_get a k)) text_keys &&
  forallb is_scalar (text_of (title_of a) ++ text_of (source_url_of a)).

(** The keys [normalize_article] reads. *)
Definition read_keys : list string :=
  ["title"; "headline"; "description"; "content"; "snippet"; "url"; "link";
   "published"; "publishedAt"; "source"].

(** An Article with the annotation of the detector attached. *)
Definition annotated (x : gmap string value) : Prop :=
  ∃ now a src a_norm mentions,
    normalize_article now a src = Ok a_norm ∧
    x = <["source_detected_mf" := VList mentions]> a_norm.

(** ** Vocabulary for the mention detector *)

(** The text searched: the three fields joined by the separator. *)
Definition haystack (t d c : str) : str :=
  t ++ py " " ++ d ++ py " " ++ c.

(** [lower] is the case mapping of Basic Latin on ASCII text. *)
Definition lower_on_ascii (lower : str → str) : Prop :=
  ∀ s, is_ascii s → lower s = ascii_lower s.

(** An Article whose text fields are all empty. *)
Definition blank_article : gmap string value :=
  <["title" := empty_str]> (<["description" := empty_str]>
  (<["content" := empty_str]> (<["source_url" := empty_str]> ∅))).

(** An Article that names three firms, one of them twice. *)
Definition news_article : gmap string value :=
  <["title" := VStr (py "hdfc amc announced a new scheme")]>
  (<["description" := VStr (py "SBI Mutual Fund follows")]>
  (<["content" := VStr (py "Axis Mutual Fund and again Axis Mutual Fund")]> ∅)).

Definition news_candidates : list str :=
  [py "SBI Mutual Fund"; py "UTI Mutual Fund"; py "HDFC AMC"; py "Axis Mutual Fund"].

(** ** Sample records *)

Definition clock0 : str := py "2024-01-01T00:00:00".
Definition clock1 : str := py "2024-01-01T00:00:01".

Definition raw_short : gmap string value :=
  <["title" := VStr (py "Fund X gains")]> (<["url" := VStr (py "http://a/1")]>
  (<["content" := VStr (py "short")]> ∅)).

Definition raw_long : gmap string value :=
  <["title" := VStr (py "Fund X gains")]> (<["url" := VStr (py "http://a/1")]>
  (<["content" := VStr (py "a much longer article body here")]> ∅)).

Definition sample_id : str :=
  py "ef37122f41a2b5b6c88af7fb1e14e8e00b1061e52d101e41ae0d51b6c9c88fc5".

Definition art_short_at (now : str) : gmap string value :=
  article (VStr (py "Fund X gains")) empty_str (VStr (py "short"))
    (VStr (py "http://a/1")) (VStr now) empty_str (VStr (py "short..."))
    (VStr sample_id).

Definition art_long_at (now : str) : gmap string value :=
  article (VStr (py "Fund X gains")) empty_str
    (VStr (py "a much longer article body here"))
    (VStr (py "http://a/1")) (VStr now) empty_str
    (VStr (py "a much longer article body here...")) (VStr sample_id).

Definition art_short : gmap string value := art_short_at clock0.
Definition art_long : gmap string value := art_long_at clock1.

(** A clock that advances after the first record. *)
Definition clock_at (i : nat) : str :=
  match i with
  | O => clock0
  | S _ => clock1
  end.

(** Two records with one [id] and contents of equal length. *)
Definition raw_first : gmap string value :=
  <["description" := VStr (py "first")]> (<["content" := VStr (py "aaaa")]> raw_short).

Definition raw_second : gmap string value :=
  <["description" := VStr (py "second")]> (<["content" := VStr (py "bbbb")]> raw_short).

(** An Article carrying the annotation of the mention detector, as
    [app.py] hands it to [dedupe_articles]. *)
Definition art_annotated : gmap string value :=
  <["source_detected_mf" := VList [py "HDFC AMC"]]> art_short.

(** Its normalized form: an Article has no [url] key. *)
Definition art_annotated_norm : gmap string value :=
  article (VStr (py "Fund X gains")) empty_str (VStr (py "short"))
    empty_str (VStr clock0) empty_str (VStr (py "short..."))
    (VStr (py "33556a1539887fc402b0bfae23451735c37eb2597b2ad79414d5cbe09a49f3e7")).

(** ** Vocabulary of the further statements *)

(** The three keys the mention detector reads. *)
Definition detect_keys : list string := ["title"; "description"; "content"].

(** The distinct elements of a list, in the order of their first
    occurrence: the key order of a dictionary filled from the list. *)
Definition first_ids (l : list value) : list value :=
  fold_left (λ acc x, if decide (x ∈ acc) then acc else acc ++ [x]) l [].

(** Two records agree on the keys [normalize_article] reads. *)
Definition same_read_keys (a b : gmap string value) : Prop :=
  ∀ k, k ∈ read_keys → a !! k = b !! k.

(** What a call returned, nothing if it raised. *)
Definition returned {A} (r : result (list A)) : list A :=
  match r with
  | Ok l => l
  | Raise _ => []
  end.

(** A record with another title, and a batch with two [id]s in which the
    record of the first [id] is replaced later. *)
Definition raw_other : gmap string value :=
  <["title" := VStr (py "Other news")]> raw_short.

Definition two_id_batch : list (gmap string value) :=
  [raw_short; raw_other; raw_long].

(** A record whose title is a number. *)
Definition raw_numeric : gmap string value :=
  <["title" := VInt 5]> raw_short.

(** A fetch session in which the two channels return records with one title
    and two links, and one in which one record names three firms. *)
Definition session_one_title : result (list (gmap string value)) :=
  fetch_session ascii_lower clock_at clock_at clock_at news_candidates
    [raw_short] [<["url" := VStr (py "http://b/2")]> raw_long].

Definition session_news : result (list (gmap string value)) :=
  fetch_session ascii_lower clock_at clock_at clock_at news_candidates
    [] [news_article].

(** ** The candidate list of the sidebar ([app.py], line 43) *)

(** [s.split(sep)] for a separator of one character. *)
Fixpoint split_on (sep : N) (s : str) : list str :=
  match s with
  | [] => [[]]
  | c :: rest =>
      if (c =? sep)%N then [] :: split_on sep rest
      else match split_on sep rest with
           | [] => [[c]]
           | w :: ws => (c :: w) :: ws
           end
  end.

(** The characters [str.strip()] removes: those [str.isspace] accepts. *)
Definition is_space (c : N) : bool :=
  (((9 <=? c) && (c <=? 13)) || ((28 <=? c) && (c <=? 32)) ||
   (c =? 0x85) || (c =? 0xA0) || (c =? 0x1680) ||
   ((0x2000 <=? c) && (c <=? 0x200A)) ||
   (c =? 0x2028) || (c =? 0x2029) || (c =? 0x202F) || (c =? 0x205F) ||
   (c =? 0x3000))%N.

Fixpoint lstrip (s : str) : str :=
  match s with
  | [] => []
  | c :: rest => if is_space c then lstrip rest else s
  end.

(** [s.strip()] *)
Definition strip (s : str) : str := rev (lstrip (rev (lstrip s))).

Definition comma : N := 44%N.

(** [[m.strip() for m in mf_list_input.split(",") if m.strip()]] *)
Definition parse_mf_list (mf_list_input : str) : list str :=
  List.filter (λ m, negb (Nat.eqb (length m) 0))
              (map strip (split_on comma mf_list_input)).

(** A name as the parser returns it: not empty, no space at either end, no
    comma. *)
Definition clean_name (m : str) : Prop :=
  m ≠ [] ∧
  (∀ c, head m = Some c → is_space c = false) ∧
  (∀ c, last m = Some c → is_space c = false) ∧
  comma ∉ m.

(** Names written one after the other with commas between them. *)
Fixpoint join_commas (names : list str) : str :=
  match names with
  | [] => []
  | [m] => m
  | m :: rest => m ++ comma :: join_commas rest
  end.

(** The default text of the sidebar. *)
Definition default_mf_input : str :=
  py "SBI Mutual Fund,HDFC AMC,ICICI Prudential Mutual Fund,Axis Mutual Fund,Nippon India Mutual Fund,UTI Mutual Fund,Aditya Birla Sun Life Mutual Fund".

(** ** The fetchers ([util.py], lines 9 to 72), from the parsed response on

    The request and its parsing belong to [requests], [feedparser] and
    [BeautifulSoup]; what they hand over is the input here. An item of the
    response is a JSON object (a feed entry): its [source], which the code
    looks into, is kept apart from the other fields. *)

Inductive jsource :=
  | SrcMissing
  | SrcPlain (v : value)
  | SrcObject (o : gmap string value).

Record item := Item {
  item_fields : gmap string value;
  item_source : jsource }.

(** [a.get("source")], as a truth value *)
Definition source_truthy (s : jsource) : bool :=
  match s with
  | SrcMissing => false
  | SrcPlain v => truthy v
  | SrcObject o => negb (bool_decide (o = ∅))
  end.

(** [a.get("source", {}).get(key)]: no object of [value] has a [get]. *)
Definition source_get (s : jsource) (key : string) : result value :=
  match s with
  | SrcMissing => Ok VNone
  | SrcPlain _ => Raise AttributeError
  | SrcObject o => Ok (dict_get o key)
  end.

(** The dictionary built for one item of the NewsAPI response. *)
Definition newsapi_record (a : item) : result (gmap string value) :=
  name ← source_get (item_source a) "name";
  Ok (<["source" := name]>
      (<["published" := dict_get (item_fields a) "publishedAt"]>
      (<["url" := dict_get (item_fields a) "url"]>
      (<["content" := dict_get (item_fields a) "content"]>
      (<["description" := dict_get (item_fields a) "description"]>
      (<["title" := dict_get (item_fields a) "title"]> ∅)))))).

Fixpoint newsapi_loop (items : list item) (articles : list (gmap string value))
  : result (list (gmap string value)) :=
  match items with
  | [] => Ok articles
  | a :: rest =>
      r ← newsapi_record a;
      newsapi_loop rest (articles ++ [r])
  end.

(** [fetch_newsapi_articles], on [data.get("articles", [])]. *)
Definition fetch_newsapi_articles (items : list item)
  : result (list (gmap string value)) :=
  newsapi_loop items [].

(** [l[:limit]] *)
Definition slice_upto {A} (limit : Z) (l : list A) : list A :=
  if 0 <=? limit then take (Z.to_nat limit) l
  else take (length l - Z.to_nat (- limit)) l.

(** [" ".join(texts)] *)
Fixpoint join_space (texts : list str) : str :=
  match texts with
  | [] => []
  | [s] => s
  | s :: rest => s ++ py " " ++ join_space rest
  end.

(** The dictionary built for one entry of the feed. [scraped] is what
    fetching the page of the entry and taking the text of its paragraphs
    gave: the texts, or an exception. *)
Definition google_record (scraped : result (list str)) (entry : item)
  : result (gmap string value) :=
  let content := dict_get_or (item_fields entry) "summary" empty_str in
  let link := dict_get (item_fields entry) "link" in
  let published := dict_get (item_fields entry) "published" in
  let content :=
    match scraped with
    | Ok ps =>
        if negb (Nat.eqb (length ps) 0) then VStr (join_space (take 6 ps))
        else content
    | Raise _ => content
    end in
  source ← (if source_truthy (item_source entry)
            then source_get (item_source entry) "title" else Ok VNone);
  Ok (<["source" := source]>
      (<["published" := published]>
      (<["url" := link]>
      (<["content" := content]>
      (<["description" := dict_get (item_fields entry) "summary"]>
      (<["title" := dict_get (item_fields entry) "title"]> ∅)))))).

Fixpoint google_loop (scrape : nat → value → result (list str)) (i : nat)
    (entries : list item) (articles : list (gmap string value))
  : result (list (gmap string value)) :=
  match entries with
  | [] => Ok articles
  | entry :: rest =>
      r ← google_record (scrape i (dict_get (item_fields entry) "link")) entry;
      google_loop scrape (S i) rest (articles ++ [r])
  end.

(** [fetch_google_news_rss], on [feed.entries]; [scrape i link] is the
    outcome of scraping the page of the entry at position [i]. *)
Definition fetch_google_news_rss (scrape : nat → value → result (list str))
    (entries : list item) (limit : Z) : result (list (gmap string value)) :=
  google_loop scrape 0 (slice_upto limit entries) [].

(** The keys of a fetched record. *)
Definition fetched_keys : gset string :=
  list_to_set ["title"; "description"; "content"; "url"; "published"; "source"].

(** The source of an item is absent or an object. *)
Definition source_ok (a : item) : Prop :=
  ∀ v, item_source a ≠ SrcPlain v.

(** An item with everything in it, one without a source and one whose
    source is null. *)
Definition item_full : item :=
  Item (<["title" := VStr (py "Fund X gains")]>
        (<["url" := VStr (py "http://a/1")]>
        (<["publishedAt" := VStr (py "2023-05-05T10:00:00Z")]>
        (<["summary" := VStr (py "Fund X gained")]>
        (<["link" := VStr (py "http://a/1")]> ∅)))))
       (SrcObject (<["name" := VStr (py "The Daily")]>
                   (<["title" := VStr (py "The Daily")]> ∅))).

Definition item_bare : item := Item ∅ SrcMissing.

Definition item_null_source : item := Item (item_fields item_full) (SrcPlain VNone).

(** A scraper that fails, and one that finds two paragraphs. *)
Definition scrape_fails (i : nat) (link : value) : result (list str) :=
  Raise TypeError.

Definition scrape_two (i : nat) (link : value) : result (list str) :=
  Ok [py "First paragraph."; py "Second one."].

(** The record a call returned, the empty one if it raised. *)
Definition returned_record (r : result (gmap string value)) : gmap string value :=
  match r with
  | Ok d => d
  | Raise _ => ∅
  end.

Definition record_unscraped : gmap string value :=
  returned_record (google_record (scrape_fails 0 VNone) item_full).

Definition record_newsapi : gmap string value :=
  returned_record (newsapi_record item_full).

Definition article_newsapi : gmap string value :=
  returned_record (normalize_article clock0 record_newsapi (VStr (py "NewsAPI"))).

Definition record_scraped : gmap string value :=
  returned_record (google_record (scrape_two 0 VNone) item_full).

Definition article_scraped : gmap string value :=
  returned_record
    (normalize_article clock0 record_scraped (VStr (py "GoogleNewsRSS"))).


(** No two different normalized forms of records of the batch have one [id]
    and contents of one length, all read at clock reading [now]. *)
Definition no_ties (now : str) (articles : list (gmap string value)) : Prop :=
  ∀ a b na nb,
    a ∈ articles → b ∈ articles →
    normalize_article now a (dict_get a "source") = Ok na →
    normalize_article now b (dict_get b "source") = Ok nb →
    rid na = rid nb → clen na = clen nb → na = nb.

(** Closed equations are settled by evaluation in the virtual machine. *)
Ltac by_eval :=
  lazymatch goal with
  | |- ?x = ?y => vm_cast_no_check (@eq_refl _ y)
  end.

(** ** The hash and the encoder on known vectors *)

Example sha256_constants :
  length Sha256.primes = 64%nat ∧ last Sha256.primes = Some 311 ∧
  head Sha256.K = Some 0x428a2f98 ∧ last Sha256.K = Some 0xc67178f2 ∧
  Sha256.ha Sha256.H0 = 0x6a09e667 ∧ Sha256.hh Sha256.H0 = 0x5be0cd19.
Proof. repeat split. Qed.

Example sha256_empty :
  Sha256.hexdigest [] =
  py "e3b0c44298fc1c149afbf4c8996fb92427ae41e4649b934ca495991b7852b855".
Proof. vm_compute. reflexivity. Qed.

Example sha256_abc :
  option_map Sha256.hexdigest (utf8 (py "abc")) =
  Some (py "ba7816bf8f01cfea414140de5dae2223b00361a396177a9cb410ff61f20015ad").
Proof. vm_compute. reflexivity. Qed.

Example sha256_two_blocks :
  option_map Sha256.hexdigest
    (utf8 (py "abcdbcdecdefdefgefghfghighijhijkijkljklmklmnlmnomnopnopq")) =
  Some (py "248d6a61d20638b8e5c026930c3e6039a33ce45964ff2167f6ecedd419db06c1").
Proof. vm_compute. reflexivity. Qed.

Example sha256_e_acute :
  option_map Sha256.hexdigest (utf8 [233%N]) =
  Some (py "4a99557e4033c3539de2eb65472017cad5f9557f7a0625a09f1c3f6e2ba69c4c").
Proof. vm_compute. reflexivity. Qed.


(** ** Objects and [or] *)

Lemma por_truthy x y : truthy x = true → por x y = x.
Proof. unfold por. by intros ->. Qed.

(** A chain ending in [""] is either true or is [""]. *)
Lemma por_empty_cases x :
  (truthy (por x empty_str) = true ∧ por x empty_str = x) ∨
  (truthy x = false ∧ por x empty_str = empty_str).
Proof. unfold por. destruct (truthy x) eqn:E; auto. Qed.

Lemma por_empty_idem x : por (por x empty_str) empty_str = por x empty_str.
Proof. destruct (por_empty_cases x) as [[H _]|[_ ->]]; [by apply por_truthy | done]. Qed.

Lemma truthy_VStr s : truthy (VStr s) = true ↔ s ≠ [].
Proof. destruct s; simpl; split; congruence. Qed.

Lemma is_text_por x y : is_text x = true → is_text y = true → is_text (por x y) = true.
Proof. unfold por. by destruct (truthy x). Qed.

Lemma is_text_por_str x s : is_text x = true → ∃ t, por x (VStr s) = VStr t.
Proof. destruct x; try done; unfold por; simpl; [eauto|]. destruct (negb _); eauto. Qed.

(** ** The encoder *)

Lemma utf8_cp_is_Some c : is_Some (utf8_cp c) ↔ is_scalar c = true.
Proof.
  unfold utf8_cp, is_scalar, is_surrogate.
  destruct (N.ltb_spec c 0x80), (N.ltb_spec c 0x800), (N.ltb_spec c 0x10000),
    (N.ltb_spec c 0x110000), (N.ltb_spec c 0xD800), (N.ltb_spec 0xDFFF c),
    (N.leb_spec 0xD800 c), (N.leb_spec c 0xDFFF);
    simpl; try lia; split; intros Hs; try done; try (by eexists);
    by apply is_Some_None in Hs.
Qed.

Lemma utf8_is_Some s : is_Some (utf8 s) ↔ encodable s.
Proof.
  unfold encodable. induction s as [|c s IH]; simpl.
  - split; [constructor | by eexists].
  - rewrite Forall_cons, <- IH, <- utf8_cp_is_Some.
    destruct (utf8_cp c), (utf8 s); split; try done.
    + by intros [[]%is_Some_None _] || intros [_ []%is_Some_None].
    + by intros [[]%is_Some_None _] || intros [_ []%is_Some_None].
    + by intros [[]%is_Some_None _] || intros [_ []%is_Some_None].
Qed.

(** ** [normalize_article]: when it returns, and what *)

Lemma cut_ok v r :
  cut v = Ok r ↔ ∃ s, v = VStr s ∧ r = VStr (take 300 s ++ py "...").
Proof.
  unfold cut. split.
  - destruct v; simpl; try done; intros [= <-]; eauto.
  - intros (s & -> & ->). reflexivity.
Qed.

Lemma key_ok t u bs :
  (k ← padd t u; encode_utf8 k) = Ok bs ↔
  ∃ a b, t = VStr a ∧ u = VStr b ∧ utf8 (a ++ b) = Some bs.
Proof.
  split.
  - destruct t as [|[]| | |], u as [|[]| | |]; simpl; try done.
    destruct (utf8 _) eqn:E; simpl; [|done]. intros [= <-]. eauto.
  - intros (a & b & -> & -> & E). simpl. by rewrite E.
Qed.

Lemma normalize_article_unfold now a src :
  normalize_article now a src =
  summary ← cut (summary_source a);
  bytes ← (k ← padd (title_of a) (source_url_of a); encode_utf8 k);
  Ok (article (title_of a) (description_of a) (content_of a) (source_url_of a)
              (published_of now a) (source_of a src) summary
              (VStr (Sha256.hexdigest bytes))).
Proof.
  unfold normalize_article, summary_source, title_of, source_url_of.
  rewrite !por_empty_idem.
  destruct (truthy (description_of a)); destruct (cut _); simpl; try done;
    by destruct (padd _ _).
Qed.

(** The exact condition under which [normalize_article] returns, and the
    Article it returns. *)
Lemma normalize_article_ok now a src art :
  normalize_article now a src = Ok art ↔
  ∃ t u sm bs,
    title_of a = VStr t ∧ source_url_of a = VStr u ∧
    summary_source a = VStr sm ∧ utf8 (t ++ u) = Some bs ∧
    art = article (VStr t) (description_of a) (content_of a) (VStr u)
            (published_of now a) (source_of a src)
            (VStr (take 300 sm ++ py "...")) (VStr (Sha256.hexdigest bs)).
Proof.
  rewrite normalize_article_unfold. split.
  - destruct (cut _) as [sm'|] eqn:Ec; simpl; [|done].
    destruct (_ ← padd _ _; _) as [bs|] eqn:Ek; [|done].
    apply cut_ok in Ec as (sm & Esm & ->).
    apply key_ok in Ek as (t & u & Et & Eu & Ebs).
    intros [= <-]. exists t, u, sm, bs. by rewrite Et, Eu.
  - intros (t & u & sm & bs & Et & Eu & Esm & Ebs & ->).
    rewrite Esm, Et, Eu. simpl. by rewrite Ebs.
Qed.

Lemma article_lookup t d c u p s sm i :
  article t d c u p s sm i !! "title" = Some t ∧
  article t d c u p s sm i !! "description" = Some d ∧
  article t d c u p s sm i !! "content" = Some c ∧
  article t d c u p s sm i !! "source_url" = Some u ∧
  article t d c u p s sm i !! "published" = Some p ∧
  article t d c u p s sm i !! "source" = Some s ∧
  article t d c u p s sm i !! "summary" = Some sm ∧
  article t d c u p s sm i !! "id" = Some i.
Proof. unfold article. repeat split; by simplify_map_eq. Qed.

Lemma article_dom t d c u p s sm i :
  dom (article t d c u p s sm i) = article_keys.
Proof. unfold article, article_keys. rewrite !dom_insert_L. set_solver. Qed.

Lemma article_nonempty t d c u p s sm i : article t d c u p s sm i ≠ ∅.
Proof. unfold article. apply insert_non_empty. Qed.

(** ** The rendering of the digest *)

Lemma nibble_range x i : 0 ≤ Sha256.nibble x i < 16.
Proof.
  unfold Sha256.nibble. change 0xF with (Z.ones 4).
  rewrite Z.land_ones by lia. apply Z.mod_pos_bound. lia.
Qed.

Lemma hex_digit_lower d : 0 ≤ d < 16 → is_hex_lower (Sha256.hex_digit d) = true.
Proof.
  intros Hd.
  assert (Hn : ∃ n : nat, (n < 16)%nat ∧ d = Z.of_nat n).
  { exists (Z.to_nat d). lia. }
  destruct Hn as (n & Hn & ->).
  do 16 (destruct n as [|n]; [reflexivity|]). lia.
Qed.

Lemma hex_word_spec x :
  length (Sha256.hex_word x) = 8%nat ∧
  Forall (λ c, is_hex_lower c = true) (Sha256.hex_word x).
Proof.
  unfold Sha256.hex_word. split; [reflexivity|].
  simpl. repeat constructor; apply hex_digit_lower, nibble_range.
Qed.

Lemma hexdigest_spec msg :
  length (Sha256.hexdigest msg) = 64%nat ∧
  Forall (λ c, is_hex_lower c = true) (Sha256.hexdigest msg).
Proof.
  unfold Sha256.hexdigest, Sha256.hex_state. split.
  - rewrite !length_app.
    by repeat rewrite (proj1 (hex_word_spec _)).
  - repeat (apply Forall_app; split); apply hex_word_spec.
Qed.

Example normalize_raw_short : normalize_article clock0 raw_short VNone = Ok art_short.
Proof. by_eval. Qed.

Example normalize_raw_long : normalize_article clock1 raw_long VNone = Ok art_long.
Proof. by_eval. Qed.

(** ** The identity key *)

(** C3: the [id] of an Article is the lowercase hexadecimal SHA-256 digest
    (64 digits, 256 bits) of the UTF-8 bytes of its [title] followed by its
    [source_url]; hence two raw records, whatever their other fields, source
    labels and clock readings, whose Articles have the same [title] and
    [source_url] get the same [id]. *)
Theorem id_is_hash_of_title_and_url now a src art :
  normalize_article now a src = Ok art →
  (∃ t u bs,
      art !! "title" = Some (VStr t) ∧ art !! "source_url" = Some (VStr u) ∧
      utf8 (t ++ u) = Some bs ∧
      art !! "id" = Some (VStr (Sha256.hexdigest bs)) ∧
      length (Sha256.hexdigest bs) = 64%nat ∧
      Forall (λ c, is_hex_lower c = true) (Sha256.hexdigest bs)) ∧
  (∀ now' b src' art',
      normalize_article now' b src' = Ok art' →
      art' !! "title" = art !! "title" →
      art' !! "source_url" = art !! "source_url" →
      art' !! "id" = art !! "id").
Proof.
  intros (t & u & sm & bs & Et & Eu & Esm & Ebs & ->)%normalize_article_ok.
  split.
  - exists t, u, bs.
    destruct (article_lookup (VStr t) (description_of a) (content_of a) (VStr u)
      (published_of now a) (source_of a src) (VStr (take 300 sm ++ py "..."))
      (VStr (Sha256.hexdigest bs))) as (-> & _ & _ & -> & _ & _ & _ & ->).
    repeat split; try done; apply hexdigest_spec.
  - intros now' b src' art'
      (t' & u' & sm' & bs' & Et' & Eu' & Esm' & Ebs' & ->)%normalize_article_ok.
    unfold article. simplify_map_eq. intros [= ->] [= ->]. congruence.
Qed.

Lemma id_is_hash_of_title_and_url_witness :
  normalize_article clock0 raw_short VNone = Ok art_short ∧
  art_long !! "id" = art_short !! "id".
Proof.
  split; [by_eval|].
  apply (proj2 (id_is_hash_of_title_and_url clock0 raw_short VNone art_short
                  ltac:(by_eval)) clock1 raw_long VNone art_long);
    [by_eval | reflexivity | reflexivity].
Defined.

(** ** The summary *)

Lemma length_py_dots : length (py "...") = 3%nat.
Proof. reflexivity. Qed.

(** C4, as the code has it: the [summary] is the first 300 characters of
    [description] (of [content] when [description] is empty) followed by the
    ellipsis marker in every case, whether or not anything was cut off; it has
    at most 303 characters, and it is the marker alone when both are empty. *)
Theorem summary_is_cut_plus_marker now a src art :
  normalize_article now a src = Ok art →
  ∃ d body,
    art !! "description" = Some (VStr d) ∧
    body = (if decide (d = []) then field art "content" else d) ∧
    art !! "summary" = Some (VStr (take 300 body ++ py "...")) ∧
    (length (take 300 body ++ py "...") ≤ 303)%nat ∧
    (d = [] → field art "content" = [] →
     art !! "summary" = Some (VStr (py "..."))).
Proof.
  intros (t & u & sm & bs & Et & Eu & Esm & Ebs & ->)%normalize_article_ok.
  unfold summary_source in Esm.
  assert (Hd : ∃ d, description_of a = VStr d ∧
                    sm = if decide (d = []) then text_of (content_of a) else d).
  { destruct (truthy (description_of a)) eqn:Ht.
    - exists sm. split; [done|]. rewrite Esm in Ht.
      apply truthy_VStr in Ht. by rewrite decide_False.
    - exists []. unfold description_of in *.
      destruct (por_empty_cases (dict_get a "description")) as [[H1 _]|[_ H2]];
        [congruence|]. by rewrite H2, Esm. }
  destruct Hd as (d & Ed & Esm').
  exists d, sm. unfold field, dict_get, article. simplify_map_eq.
  rewrite Ed. repeat split; try done.
  - rewrite length_app, length_take, length_py_dots. lia.
  - intros -> Hc. rewrite decide_True by done. by rewrite Hc.
Qed.

Lemma summary_is_cut_plus_marker_witness :
  normalize_article clock0 raw_short VNone = Ok art_short ∧
  ∃ d body,
    art_short !! "description" = Some (VStr d) ∧
    body = (if decide (d = []) then field art_short "content" else d) ∧
    art_short !! "summary" = Some (VStr (take 300 body ++ py "...")) ∧
    (length (take 300 body ++ py "...") ≤ 303)%nat ∧
    (d = [] → field art_short "content" = [] →
     art_short !! "summary" = Some (VStr (py "..."))).
Proof.
  split; [by_eval|].
  apply (summary_is_cut_plus_marker clock0 raw_short VNone art_short). by_eval.
Defined.

(** C4, as stated, fails: a three-character description is not truncated,
    and its summary still carries the marker, so it is not the first 300
    characters of the description. *)
Lemma summary_marker_without_truncation :
  ∃ art,
    normalize_article clock0 (<["description" := VStr (py "abc")]> ∅) VNone = Ok art ∧
    (length (py "abc") ≤ 300)%nat ∧
    art !! "summary" = Some (VStr (py "abc...")) ∧
    art !! "summary" ≠ Some (VStr (take 300 (py "abc"))).
Proof.
  eexists. split; [apply normalize_article_ok; do 4 eexists;
    repeat split; vm_compute; reflexivity|].
  split; [vm_compute; lia|]. split; [reflexivity|]. by vm_compute.
Qed.

(** ** The content *)

Lemma content_of_spec a :
  (truthy (dict_get a "content") = true → content_of a = dict_get a "content") ∧
  (truthy (dict_get a "content") = false →
   truthy (dict_get a "snippet") = true → content_of a = dict_get a "snippet") ∧
  (truthy (dict_get a "content") = false →
   truthy (dict_get a "snippet") = false → content_of a = description_of a).
Proof.
  unfold content_of, por.
  destruct (truthy (dict_get a "content")) eqn:Hc; simpl; rewrite ?Hc;
    destruct (truthy (dict_get a "snippet")) eqn:Hs; simpl; rewrite ?Hs; done.
Qed.

Lemma truthy_not_empty v : truthy v = true → v ≠ empty_str.
Proof. by intros H ->. Qed.

(** C7: [content] is the raw content field if that is non-empty, else the
    raw snippet field if that is non-empty, else the Article's
    [description]; so [content] is non-empty as soon as the description or
    the raw snippet is. *)
Theorem content_resolution now a src art :
  normalize_article now a src = Ok art →
  ∃ c d,
    art !! "content" = Some c ∧ art !! "description" = Some d ∧
    (truthy (dict_get a "content") = true → c = dict_get a "content") ∧
    (truthy (dict_get a "content") = false →
     truthy (dict_get a "snippet") = true → c = dict_get a "snippet") ∧
    (truthy (dict_get a "content") = false →
     truthy (dict_get a "snippet") = false → c = d) ∧
    (truthy d = true ∨ truthy (dict_get a "snippet") = true →
     truthy c = true ∧ c ≠ empty_str).
Proof.
  intros (t & u & sm & bs & Et & Eu & Esm & Ebs & ->)%normalize_article_ok.
  exists (content_of a), (description_of a).
  destruct (content_of_spec a) as (H1 & H2 & H3).
  split; [by unfold article; simplify_map_eq|].
  split; [by unfold article; simplify_map_eq|].
  do 3 (split; [done|]).
  intros Hds.
  assert (Ht : truthy (content_of a) = true).
  { destruct (truthy (dict_get a "content")) eqn:Hc; [by rewrite H1|].
    destruct (truthy (dict_get a "snippet")) eqn:Hs; [by rewrite H2|].
    rewrite H3 by done. by destruct Hds. }
  split; [done | by apply truthy_not_empty].
Qed.

Lemma content_resolution_witness :
  normalize_article clock0 raw_short VNone = Ok art_short ∧
  ∃ c d,
    art_short !! "content" = Some c ∧ art_short !! "description" = Some d ∧
    (truthy (dict_get raw_short "content") = true → c = dict_get raw_short "content") ∧
    (truthy (dict_get raw_short "content") = false →
     truthy (dict_get raw_short "snippet") = true → c = dict_get raw_short "snippet") ∧
    (truthy (dict_get raw_short "content") = false →
     truthy (dict_get raw_short "snippet") = false → c = d) ∧
    (truthy d = true ∨ truthy (dict_get raw_short "snippet") = true →
     truthy c = true ∧ c ≠ empty_str).
Proof.
  split; [by_eval|].
  apply (content_resolution clock0 raw_short VNone art_short). by_eval.
Defined.

(** ** Totality *)

Lemma typed_title a : typed_record a → ∃ t, title_of a = VStr t.
Proof.
  intros H. apply is_text_por_str, is_text_por; apply H; set_solver.
Qed.

Lemma typed_source_url a : typed_record a → ∃ u, source_url_of a = VStr u.
Proof.
  intros H. apply is_text_por_str, is_text_por; apply H; set_solver.
Qed.

Lemma typed_summary_source a : typed_record a → ∃ sm, summary_source a = VStr sm.
Proof.
  intros H. unfold summary_source.
  assert (∃ d, description_of a = VStr d) as [d Hd].
  { apply is_text_por_str, H. set_solver. }
  destruct (truthy (description_of a)); [eauto|].
  unfold content_of. rewrite Hd.
  apply is_text_por_str, is_text_por; apply H; set_solver.
Qed.

Lemma dict_get_None (a : gmap string value) k : a !! k = None → dict_get a k = VNone.
Proof. unfold dict_get. by intros ->. Qed.

Lemma normalize_raw_ok now a src :
  raw_ok a →
  ∃ t u sm c bs,
    title_of a = VStr t ∧ source_url_of a = VStr u ∧
    summary_source a = VStr sm ∧ content_of a = VStr c ∧
    utf8 (t ++ u) = Some bs ∧
    normalize_article now a src =
    Ok (article (VStr t) (description_of a) (VStr c) (VStr u)
          (published_of now a) (source_of a src)
          (VStr (take 300 sm ++ py "...")) (VStr (Sha256.hexdigest bs))).
Proof.
  intros [Hty Henc].
  destruct (typed_title a Hty) as [t Et].
  destruct (typed_source_url a Hty) as [u Eu].
  destruct (typed_summary_source a Hty) as [sm Esm].
  assert (∃ c, content_of a = VStr c) as [c Ec].
  { unfold content_of.
    assert (∃ d, description_of a = VStr d) as [d ->]
      by (apply is_text_por_str, Hty; set_solver).
    apply is_text_por_str, is_text_por; apply Hty; set_solver. }
  rewrite Et, Eu in Henc. simpl in Henc.
  apply utf8_is_Some in Henc as [bs Ebs].
  exists t, u, sm, c, bs. repeat (split; [done|]).
  apply normalize_article_ok. exists t, u, sm, bs. rewrite Ec. eauto 10.
Qed.

(** C9, as the code has it: on every raw record whose text fields ([title],
    [headline], [description], [content], [snippet], [url], [link]) are each
    absent, [None] or a string, and whose title and link hold no surrogate
    code point, [normalize_article] returns an Article, with exactly the
    eight keys; absent title, description and link become the empty string,
    an absent date the clock reading, an absent source the default label
    (the empty string if that is empty too). *)
Theorem normalize_total_on_text_records now a src :
  raw_ok a →
  ∃ art,
    normalize_article now a src = Ok art ∧
    dom art = article_keys ∧
    (a !! "title" = None → a !! "headline" = None →
     art !! "title" = Some empty_str) ∧
    (a !! "description" = None → art !! "description" = Some empty_str) ∧
    (a !! "url" = None → a !! "link" = None →
     art !! "source_url" = Some empty_str) ∧
    (a !! "published" = None → a !! "publishedAt" = None →
     art !! "published" = Some (VStr now)) ∧
    (a !! "source" = None → art !! "source" = Some (por src empty_str)).
Proof.
  intros (t & u & sm & c & bs & Et & Eu & Esm & Ec & Ebs & E)%(normalize_raw_ok now a src).
  eexists. split; [exact E|].
  split; [apply article_dom|].
  unfold article. simplify_map_eq.
  repeat split.
  - intros H1 H2. rewrite <- Et. unfold title_of.
    by rewrite (dict_get_None _ _ H1), (dict_get_None _ _ H2).
  - intros H1. unfold description_of. by rewrite (dict_get_None _ _ H1).
  - intros H1 H2. rewrite <- Eu. unfold source_url_of.
    by rewrite (dict_get_None _ _ H1), (dict_get_None _ _ H2).
  - intros H1 H2. unfold published_of.
    by rewrite (dict_get_None _ _ H1), (dict_get_None _ _ H2).
  - intros H1. unfold source_of. by rewrite (dict_get_None _ _ H1).
Qed.

Lemma raw_ok_empty : raw_ok ∅.
Proof.
  split.
  - intros k _. unfold dict_get. by rewrite lookup_empty.
  - change (text_of (title_of ∅) ++ text_of (source_url_of ∅)) with (@nil N).
    constructor.
Qed.

Lemma normalize_total_on_text_records_witness :
  raw_ok ∅ ∧
  ∃ art, normalize_article clock0 ∅ VNone = Ok art ∧
         art !! "title" = Some empty_str ∧
         art !! "published" = Some (VStr clock0).
Proof.
  split; [exact raw_ok_empty|].
  destruct (normalize_total_on_text_records clock0 ∅ VNone raw_ok_empty)
    as (art & E & _ & Ht & _ & _ & Hp & _).
  exists art. split; [exact E|]. split; [by apply Ht | by apply Hp].
Defined.

(** C9, as stated, fails: a numeric title makes line 87 raise [TypeError],
    and a title holding a lone surrogate (as [json] decodes an unpaired
    escape) makes line 88 raise [UnicodeEncodeError]. *)
Lemma normalize_raises :
  normalize_article clock0 (<["title" := VInt 5]> ∅) VNone = Raise TypeError ∧
  normalize_article clock0 (<["title" := VStr [0xD83D%N]]> ∅) VNone
    = Raise UnicodeEncodeError.
Proof. split; by_eval. Qed.

(** ** The clock *)

Lemma published_of_supplied now1 now2 a :
  truthy (dict_get a "published") = true ∨
  truthy (dict_get a "publishedAt") = true ∨ now1 = now2 →
  published_of now1 a = published_of now2 a.
Proof.
  unfold published_of, por. intros [H|[H| ->]]; [| |done].
  - by rewrite H, H.
  - destruct (truthy (dict_get a "published")) eqn:E; rewrite ?E, ?H; done.
Qed.

(** C10, as the code has it: [normalize_article] is a function of the raw
    record, the default source label and the clock reading. Two runs on the
    same record and label return the same Article when the record supplies a
    non-empty [published] or [publishedAt], or when the clock reads the
    same; in every case one run returns exactly when the other does, and the
    two Articles agree on every key but [published]. *)
Theorem normalize_deterministic_up_to_clock now1 now2 a src :
  (truthy (dict_get a "published") = true ∨
   truthy (dict_get a "publishedAt") = true ∨ now1 = now2 →
   normalize_article now1 a src = normalize_article now2 a src) ∧
  (∀ art1, normalize_article now1 a src = Ok art1 →
     ∃ art2, normalize_article now2 a src = Ok art2 ∧
             ∀ k, k ≠ "published" → art1 !! k = art2 !! k) ∧
  (∀ e, normalize_article now1 a src = Raise e →
        normalize_article now2 a src = Raise e).
Proof.
  rewrite !normalize_article_unfold. repeat split.
  - intros H. by rewrite (published_of_supplied now1 now2 a H).
  - destruct (cut _); simpl; [|done].
    destruct (_ ← padd _ _; _); simpl; [|done].
    intros art1 [= <-]. eexists. split; [done|].
    intros k Hk. unfold article. rewrite !lookup_insert.
    repeat case_decide; congruence.
  - destruct (cut _); simpl; [|done].
    by destruct (_ ← padd _ _; _).
Qed.

Lemma normalize_deterministic_up_to_clock_witness :
  truthy (dict_get (<["published" := VStr (py "2023-05-05")]> raw_short) "published") = true ∧
  normalize_article clock0 (<["published" := VStr (py "2023-05-05")]> raw_short) VNone =
  normalize_article clock1 (<["published" := VStr (py "2023-05-05")]> raw_short) VNone.
Proof.
  split; [reflexivity|].
  apply (normalize_deterministic_up_to_clock clock0 clock1). left. reflexivity.
Defined.

(** C10, as stated, fails: a record without a date gets the clock reading,
    so two runs at different times return different Articles. *)
Lemma normalize_depends_on_clock :
  ∃ art0 art1,
    normalize_article clock0 ∅ VNone = Ok art0 ∧
    normalize_article clock1 ∅ VNone = Ok art1 ∧
    art0 !! "published" = Some (VStr clock0) ∧
    art1 !! "published" = Some (VStr clock1) ∧
    art0 ≠ art1.
Proof.
  do 2 eexists.
  split; [apply normalize_article_ok; do 4 eexists; repeat split; vm_compute; reflexivity|].
  split; [apply normalize_article_ok; do 4 eexists; repeat split; vm_compute; reflexivity|].
  split; [reflexivity|]. split; [reflexivity|].
  intros E. apply (f_equal (λ d : gmap string value, d !! "published")) in E.
  vm_compute in E. discriminate E.
Qed.

(** ** Normalizing an Article again *)

Lemma dict_get_article t d c u p s sm i :
  dict_get (article t d c u p s sm i) "title" = t ∧
  dict_get (article t d c u p s sm i) "description" = d ∧
  dict_get (article t d c u p s sm i) "content" = c ∧
  dict_get (article t d c u p s sm i) "headline" = VNone ∧
  dict_get (article t d c u p s sm i) "snippet" = VNone ∧
  dict_get (article t d c u p s sm i) "url" = VNone ∧
  dict_get (article t d c u p s sm i) "link" = VNone.
Proof. unfold dict_get, article. repeat split; by simplify_map_eq. Qed.

Lemma por_VNone_r x y : por (por x VNone) y = por x y.
Proof. unfold por. by destruct (truthy x) eqn:E; rewrite ?E. Qed.

Lemma por_absorb x d : por (por x d) d = por x d.
Proof.
  unfold por. destruct (truthy x) eqn:E1; [by rewrite E1|]. by destruct (truthy d).
Qed.

(** An Article has no [url] and no [link] key: [normalize_article] keeps
    its title, description and content, and resets its [source_url] to the
    empty string, so that its [id] becomes the hash of the title alone. *)
Lemma renormalize now a src art now' src' :
  normalize_article now a src = Ok art →
  ∃ t bs art',
    art !! "title" = Some (VStr t) ∧ utf8 t = Some bs ∧
    normalize_article now' art src' = Ok art' ∧
    art' !! "title" = art !! "title" ∧
    art' !! "description" = art !! "description" ∧
    art' !! "content" = art !! "content" ∧
    art' !! "source_url" = Some empty_str ∧
    art' !! "id" = Some (VStr (Sha256.hexdigest bs)).
Proof.
  intros (t & u & sm & bs & Et & Eu & Esm & Ebs & ->)%normalize_article_ok.
  assert (is_Some (utf8 t)) as [bs' Ebs'].
  { apply utf8_is_Some. apply mk_is_Some, utf8_is_Some in Ebs.
    by apply Forall_app in Ebs as [? _]. }
  set (art := article _ _ _ _ _ _ _ _).
  destruct (dict_get_article (VStr t) (description_of a) (content_of a) (VStr u)
    (published_of now a) (source_of a src) (VStr (take 300 sm ++ py "..."))
    (VStr (Sha256.hexdigest bs))) as (Gt & Gd & Gc & Gh & Gs & Gu & Gl).
  fold art in Gt, Gd, Gc, Gh, Gs, Gu, Gl.
  assert (Ht' : title_of art = VStr t).
  { unfold title_of. rewrite Gt, Gh, por_VNone_r.
    rewrite <- Et. apply por_empty_idem. }
  assert (Hd' : description_of art = description_of a).
  { unfold description_of at 1. rewrite Gd. apply por_empty_idem. }
  assert (Hc' : content_of art = content_of a).
  { unfold content_of at 1. rewrite Gc, Gs, Hd', por_VNone_r.
    apply por_absorb. }
  assert (Hu' : source_url_of art = empty_str).
  { unfold source_url_of. by rewrite Gu, Gl. }
  exists t, bs'. eexists. split; [by subst art; unfold article; simplify_map_eq|].
  split; [done|]. split.
  { apply normalize_article_ok. exists t, [], sm, bs'.
    split; [done|]. split; [done|]. split.
    - unfold summary_source. by rewrite Hd', Hc'.
    - split; [by rewrite app_nil_r | reflexivity]. }
  rewrite Hd', Hc'. subst art. unfold article. by simplify_map_eq.
Qed.

(** C1 at the record of the spec's own scenario: the Article has the link
    [http://a/1]; normalized again, it has the empty link and another
    [id]. *)
Lemma renormalize_loses_source_url :
  ∃ art2,
    normalize_article clock0 raw_short VNone = Ok art_short ∧
    normalize_article clock0 art_short (dict_get art_short "source") = Ok art2 ∧
    art_short !! "source_url" = Some (VStr (py "http://a/1")) ∧
    art2 !! "source_url" = Some (VStr []) ∧
    art_short !! "id" = Some (VStr (py
      "ef37122f41a2b5b6c88af7fb1e14e8e00b1061e52d101e41ae0d51b6c9c88fc5")) ∧
    art2 !! "id" = Some (VStr (py
      "33556a1539887fc402b0bfae23451735c37eb2597b2ad79414d5cbe09a49f3e7")) ∧
    art2 !! "title" = art_short !! "title" ∧
    art2 !! "content" = art_short !! "content".
Proof.
  eexists. split; [by_eval|]. split.
  { apply normalize_article_ok. do 4 eexists.
    repeat split; vm_compute; reflexivity. }
  repeat split; vm_compute; reflexivity.
Qed.

(** [normalize_article] depends on the keys it reads only. *)
Lemma normalize_article_ext now a b src :
  (∀ k, k ∈ read_keys → a !! k = b !! k) →
  normalize_article now a src = normalize_article now b src.
Proof.
  intros H.
  assert (Hget : ∀ k, k ∈ read_keys → dict_get a k = dict_get b k).
  { intros k Hk. unfold dict_get. by rewrite (H k Hk). }
  rewrite !normalize_article_unfold.
  unfold summary_source, title_of, source_url_of, description_of, content_of,
    published_of, source_of, description_of.
  rewrite !Hget; [done|unfold read_keys; set_solver..].
Qed.

(** ** The dictionary [seen] *)

Lemma seen_get_None seen k : seen_get seen k = None ↔ k ∉ seen.*1.
Proof.
  induction seen as [|[k' v] seen IH]; simpl.
  - split; [set_solver | done].
  - case_decide; set_solver.
Qed.

Lemma seen_get_Some seen k r :
  NoDup seen.*1 → seen_get seen k = Some r ↔ (k, r) ∈ seen.
Proof.
  induction seen as [|[k' v] seen IH]; simpl; intros Hnd.
  - set_solver.
  - apply NoDup_cons in Hnd as [Hk' Hnd]. case_decide as Hk.
    + subst k'. split; [intros [= ->]; set_solver|].
      intros [[= ->]|Hin]%elem_of_cons; [done|].
      exfalso. apply Hk'. apply list_elem_of_fmap. by exists (k, r).
    + rewrite IH by done. split; [set_solver|].
      intros [[= -> ->]|Hin]%elem_of_cons; done.
Qed.

Lemma seen_set_keys_fresh seen k v :
  k ∉ seen.*1 → seen_set seen k v = seen ++ [(k, v)].
Proof.
  induction seen as [|[k' v'] seen IH]; simpl; [done|].
  intros Hk. case_decide; [set_solver|]. rewrite IH; [done|set_solver].
Qed.

Lemma seen_set_keys_present seen k v :
  k ∈ seen.*1 → (seen_set seen k v).*1 = seen.*1.
Proof.
  induction seen as [|[k' v'] seen IH]; simpl; [set_solver|].
  intros Hk. case_decide as E; simpl; [by subst|].
  f_equal. apply IH. set_solver.
Qed.

Lemma seen_set_elem_of seen k v k' r' :
  NoDup seen.*1 →
  (k', r') ∈ seen_set seen k v ↔
  (k' = k ∧ r' = v) ∨ (k' ≠ k ∧ (k', r') ∈ seen).
Proof.
  induction seen as [|[k0 v0] seen IH]; simpl; intros Hnd.
  - set_solver.
  - apply NoDup_cons in Hnd as [Hk0 Hnd]. case_decide as E.
    + subst k0. rewrite !elem_of_cons. split.
      * intros [[= -> ->]|Hin]; [by left|]. right. split; [|by right].
        intros ->. apply Hk0, list_elem_of_fmap. by exists (k, r').
      * intros [[-> ->]|[Hne [[= -> ->]|Hin]]]; [by left|done|by right].
    + rewrite !elem_of_cons, IH by done. split.
      * intros [[= -> ->]|[[-> ->]|[Hne Hin]]].
        -- right. split; [congruence | by left].
        -- by left.
        -- right. split; [done | by right].
      * intros [[-> ->]|[Hne [[= -> ->]|Hin]]].
        -- right. by left.
        -- by left.
        -- right. right. done.
Qed.

Lemma seen_set_NoDup seen k v : NoDup seen.*1 → NoDup (seen_set seen k v).*1.
Proof.
  intros Hnd. destruct (decide (k ∈ seen.*1)) as [Hk|Hk].
  - by rewrite seen_set_keys_present.
  - rewrite seen_set_keys_fresh, fmap_app by done. simpl.
    apply NoDup_app. split; [done|]. split; [|apply NoDup_singleton].
    intros x Hx ->%list_elem_of_singleton. done.
Qed.

Lemma seen_set_keys_elem_of seen k v k' :
  k' ∈ (seen_set seen k v).*1 ↔ k' = k ∨ k' ∈ seen.*1.
Proof.
  destruct (decide (k ∈ seen.*1)) as [Hk|Hk].
  - rewrite seen_set_keys_present by done. set_solver.
  - rewrite seen_set_keys_fresh, fmap_app by done. set_solver.
Qed.

(** ** The loop invariant *)

Lemma first_longest_snoc_other norms r n :
  first_longest norms r → rid n ≠ rid r → first_longest (norms ++ [n]) r.
Proof.
  intros (i & Hi & Hbest) Hne. exists i. split.
  - apply lookup_app_Some. by left.
  - intros j n' [[_ Hj]|[-> <-]]%lookup_snoc_Some; [by apply Hbest | done].
Qed.

Lemma first_longest_snoc_keep norms r n :
  first_longest norms r → (clen n ≤ clen r)%nat → first_longest (norms ++ [n]) r.
Proof.
  intros (i & Hi & Hbest) Hle. exists i. split.
  - apply lookup_app_Some. by left.
  - intros j n' [[_ Hj]|[-> <-]]%lookup_snoc_Some; [by apply Hbest|].
    intros _. split; [done|]. apply lookup_lt_Some in Hi. lia.
Qed.

Lemma first_longest_snoc_new norms n :
  (∀ j n', norms !! j = Some n' → rid n' = rid n → (clen n' < clen n)%nat) →
  first_longest (norms ++ [n]) n.
Proof.
  intros Hlt. exists (length norms). split.
  - apply lookup_snoc_Some. by right.
  - intros j n' [[Hj Hn']|[-> <-]]%lookup_snoc_Some E.
    + specialize (Hlt j n' Hn' E). lia.
    + lia.
Qed.

Lemma seen_inv_nil : seen_inv [] [].
Proof.
  split; [constructor|]. split; [|intros n Hn; by apply elem_of_nil in Hn].
  intros k r Hin. by apply elem_of_nil in Hin.
Qed.

Lemma keep_inv seen norms n :
  seen_inv seen norms → article_like n → seen_inv (keep seen n) (norms ++ [n]).
Proof.
  intros (Hnd & Hseen & Hcov) Hn. unfold keep.
  destruct (seen_get seen (rid n)) as [e|] eqn:Hget.
  - apply seen_get_Some in Hget; [|done].
    destruct (Hseen _ _ Hget) as (He & Hrid & Hbest).
    destruct (Nat.ltb_spec (clen e) (clen n)) as [Hlt|Hge].
    + (* the incoming record is longer: it replaces [e] *)
      split; [by apply seen_set_NoDup|]. split.
      * intros k r Hin; apply seen_set_elem_of in Hin as [[-> ->]|[Hne Hin]]; [| |done].
        -- split; [done|]. split; [done|]. apply first_longest_snoc_new.
           intros j n' Hj E. destruct Hbest as (i & _ & Hbest).
           rewrite <- Hrid in E. destruct (Hbest j n' Hj E) as [? _]. lia.
        -- destruct (Hseen _ _ Hin) as (? & Hr & ?). split; [done|].
           split; [done|]. apply first_longest_snoc_other; congruence.
      * intros n' [Hin| ->%list_elem_of_singleton]%elem_of_app;
          apply seen_set_keys_elem_of; auto.
    + (* otherwise [e] stays *)
      split; [done|]. split.
      * intros k r Hin. destruct (Hseen _ _ Hin) as (? & Hr & Hb).
        split; [done|]. split; [done|].
        destruct (decide (rid n = rid r)) as [E|E].
        -- assert (r = e) as ->.
           { rewrite Hr in E. subst k.
             apply (seen_get_Some _ _ _ Hnd) in Hin, Hget. congruence. }
           by apply first_longest_snoc_keep.
        -- by apply first_longest_snoc_other.
      * intros n' [Hin| ->%list_elem_of_singleton]%elem_of_app; [auto|].
        apply list_elem_of_fmap. by exists (rid n, e).
  - (* a new [id] *)
    apply seen_get_None in Hget.
    split; [by apply seen_set_NoDup|]. split.
    + intros k r Hin; apply seen_set_elem_of in Hin as [[-> ->]|[Hne Hin]]; [| |done].
      * split; [done|]. split; [done|]. apply first_longest_snoc_new.
        intros j n' Hj E. exfalso. apply Hget. rewrite <- E. apply Hcov.
        apply list_elem_of_lookup. eauto.
      * destruct (Hseen _ _ Hin) as (? & Hr & ?). split; [done|].
        split; [done|]. apply first_longest_snoc_other; congruence.
    + intros n' [Hin| ->%list_elem_of_singleton]%elem_of_app;
        apply seen_set_keys_elem_of; auto.
Qed.

(** ** The loop body is [keep] *)

Lemma content_len_article_like r : article_like r → content_len r = Ok (clen r).
Proof.
  intros (_ & _ & c & Hc). unfold content_len, clen, field, dict_get_or, dict_get.
  rewrite Hc. simpl. unfold por. by destruct c.
Qed.

Lemma dedupe_step_keep now seen norms a norm :
  seen_inv seen norms →
  normalize_article now a (dict_get a "source") = Ok norm →
  article_like norm →
  dedupe_step now seen a = Ok (keep seen norm).
Proof.
  intros (Hnd & Hseen & _) Hnorm Hlike. unfold dedupe_step, keep.
  rewrite Hnorm. simpl.
  destruct Hlike as (Hne & [i Hi] & Hc).
  unfold subscript. rewrite Hi. simpl.
  assert (rid norm = i) as -> by (unfold rid, dict_get; by rewrite Hi).
  destruct (seen_get seen i) as [e|] eqn:Hget; [|done].
  apply seen_get_Some in Hget; [|done].
  destruct (Hseen _ _ Hget) as (He & _ & _).
  rewrite bool_decide_eq_false_2 by apply He.
  rewrite (content_len_article_like e He). simpl.
  rewrite (content_len_article_like norm); [|by split; eauto]. simpl.
  by destruct (_ <? _)%nat.
Qed.

Lemma raw_ok_article_like now a src :
  raw_ok a → ∃ norm, normalize_article now a src = Ok norm ∧ article_like norm.
Proof.
  intros (t & u & sm & c & bs & _ & _ & _ & _ & _ & E)%(normalize_raw_ok now a src).
  eexists. split; [exact E|].
  split; [apply article_nonempty|]. split.
  - eexists. apply article_lookup.
  - exists c. apply article_lookup.
Qed.

Lemma raw_okb_correct a : raw_okb a = true → raw_ok a.
Proof.
  unfold raw_okb, raw_ok, typed_record, encodable.
  intros [H1 H2]%andb_true_iff. split.
  - intros k Hk. rewrite forallb_forall in H1. by apply H1, list_elem_of_In.
  - apply Forall_forall. intros c Hc. rewrite forallb_forall in H2.
    by apply H2, list_elem_of_In.
Qed.

(** An Article made from such a raw record is such a record again, so the
    deduplicator may be given raw records or Articles. *)
Lemma normalized_raw_ok now a src art :
  raw_ok a → normalize_article now a src = Ok art → raw_ok art.
Proof.
  intros Hok E.
  destruct (normalize_raw_ok now a src Hok)
    as (t & u & sm & c & bs & Et & Eu & Esm & Ec & Ebs & E').
  rewrite E in E'. injection E' as E'. clear E.
  assert (∃ d, description_of a = VStr d) as [d Ed].
  { destruct Hok as [Hty _]. apply is_text_por_str, Hty. set_solver. }
  rewrite Ed in E'.
  destruct (dict_get_article (VStr t) (VStr d) (VStr c) (VStr u)
    (published_of now a) (source_of a src) (VStr (take 300 sm ++ py "..."))
    (VStr (Sha256.hexdigest bs))) as (Gt & Gd & Gc & Gh & Gs & Gu & Gl).
  rewrite <- E' in Gt, Gd, Gc, Gh, Gs, Gu, Gl. clear E'.
  split.
  - intros k Hk. unfold text_keys in Hk.
    repeat (apply elem_of_cons in Hk as [->|Hk]);
      rewrite ?Gt, ?Gd, ?Gc, ?Gh, ?Gs, ?Gu, ?Gl; try done.
    by apply elem_of_nil in Hk.
  - unfold title_of, source_url_of. rewrite Gt, Gh, Gu, Gl, por_VNone_r.
    simpl. rewrite app_nil_r.
    apply mk_is_Some, utf8_is_Some in Ebs. apply Forall_app in Ebs as [Ht _].
    unfold por. destruct (truthy (VStr t)); [done | constructor].
Qed.

(** ** The loop *)

Lemma dedupe_loop_spec clock articles :
  ∀ i seen norms,
    Forall raw_ok articles → seen_inv seen norms →
    ∃ seen' norms',
      dedupe_loop clock i seen articles = Ok seen' ∧
      seen_inv seen' (norms ++ norms') ∧
      normalized clock i articles norms'.
Proof.
  induction articles as [|a articles IH]; intros i seen norms Hok Hinv.
  - exists seen, []. rewrite app_nil_r. split; [done|]. split; [done|].
    split; [done|]. intros j a Hj. by rewrite lookup_nil in Hj.
  - apply Forall_cons in Hok as [Ha Hok].
    destruct (raw_ok_article_like (clock i) a (dict_get a "source") Ha)
      as (n & En & Hn).
    destruct (IH (S i) (keep seen n) (norms ++ [n]) Hok (keep_inv _ _ _ Hinv Hn))
      as (seen' & norms' & Eloop & Hinv' & Hlen & Hnorms').
    exists seen', (n :: norms'). simpl.
    rewrite (dedupe_step_keep _ _ _ _ _ Hinv En Hn). simpl.
    split; [done|]. split; [by rewrite <- app_assoc in Hinv'|].
    split; [simpl; by rewrite Hlen|].
    intros [|j] b Hb; simpl in *.
    + injection Hb as <-. exists n. by rewrite Nat.add_0_r.
    + destruct (Hnorms' j b Hb) as (m & ? & Em). exists m. split; [done|].
      by replace (i + S j)%nat with (S i + j)%nat by lia.
Qed.

(** C2: on a sequence of raw records, [dedupe_articles] returns one record
    per distinct [id] of the normalized inputs, and the record retained for
    an [id] is the first of greatest [content] length (in characters) among
    the inputs with that [id], in input order: a later record replaces the
    retained one exactly when its content is strictly longer, so on equal
    lengths the first-seen record stays. *)
Theorem dedupe_keeps_first_longest clock articles :
  Forall raw_ok articles →
  ∃ norms out,
    dedupe_articles clock articles = Ok out ∧
    normalized clock 0 articles norms ∧
    NoDup (rid <$> out) ∧
    (∀ n, n ∈ norms → rid n ∈ rid <$> out) ∧
    (∀ r, r ∈ out → r ∈ norms ∧ first_longest norms r).
Proof.
  intros Hok.
  destruct (dedupe_loop_spec clock articles 0 [] [] Hok seen_inv_nil)
    as (seen & norms & Eloop & (Hnd & Hseen & Hcov) & Hnorms).
  simpl in *. exists norms, seen.*2. unfold dedupe_articles.
  rewrite Eloop. simpl.
  assert (Hids : rid <$> seen.*2 = seen.*1).
  { clear -Hseen. induction seen as [|[k r] seen IH]; simpl; [done|].
    f_equal.
    - destruct (Hseen k r) as (_ & ? & _); [by left | done].
    - apply IH. intros k' r' Hin. apply Hseen. by right. }
  split; [done|]. split; [done|]. rewrite Hids.
  split; [done|]. split; [done|].
  intros r [[k r'] [-> Hin]]%list_elem_of_fmap. simpl.
  destruct (Hseen _ _ Hin) as (_ & _ & Hbest). split; [|done].
  destruct Hbest as (i & Hi & _). apply list_elem_of_lookup. eauto.
Qed.

Lemma dedupe_keeps_first_longest_witness :
  Forall raw_ok [raw_short; raw_long] ∧
  ∃ norms out,
    dedupe_articles clock_at [raw_short; raw_long] = Ok out ∧
    normalized clock_at 0 [raw_short; raw_long] norms ∧
    NoDup (rid <$> out) ∧
    (∀ n, n ∈ norms → rid n ∈ rid <$> out) ∧
    (∀ r, r ∈ out → r ∈ norms ∧ first_longest norms r).
Proof.
  assert (H : Forall raw_ok [raw_short; raw_long]).
  { repeat constructor; apply raw_okb_correct; vm_compute; reflexivity. }
  split; [exact H|].
  exact (dedupe_keeps_first_longest clock_at [raw_short; raw_long] H).
Defined.

(** The scenarios of the spec: the longer content wins in either input
    order, and on equal lengths the first record stays. *)
Example dedupe_short_then_long :
  dedupe_articles clock_at [raw_short; raw_long] = Ok [art_long_at clock1].
Proof. by_eval. Qed.

Example dedupe_long_then_short :
  dedupe_articles clock_at [raw_long; raw_short] = Ok [art_long_at clock0].
Proof. by_eval. Qed.

Example dedupe_equal_lengths :
  (r ← dedupe_articles clock_at [raw_first; raw_second];
   Ok (map (λ d, dict_get d "description") r)) = Ok [VStr (py "first")].
Proof. by_eval. Qed.

(** ** What [dedupe_articles] returns carries the Article keys only *)

Lemma normalize_article_dom now a src art :
  normalize_article now a src = Ok art → dom art = article_keys.
Proof.
  intros (t & u & sm & bs & _ & _ & _ & _ & ->)%normalize_article_ok.
  apply article_dom.
Qed.

Lemma seen_set_elem_of_1 seen k v k' r' :
  (k', r') ∈ seen_set seen k v → (k', r') = (k, v) ∨ (k', r') ∈ seen.
Proof.
  induction seen as [|[k0 v0] seen IH]; simpl.
  - intros ->%list_elem_of_singleton. by left.
  - case_decide; rewrite !elem_of_cons; [tauto|].
    intros [->|Hin]; [auto|]. destruct (IH Hin); auto.
Qed.

(** Whatever the records are, a record in [seen] is the normalized form of
    one of the inputs. *)
Lemma dedupe_step_output now seen a seen' k r :
  dedupe_step now seen a = Ok seen' → (k, r) ∈ seen' →
  (k, r) ∈ seen ∨ normalize_article now a (dict_get a "source") = Ok r.
Proof.
  unfold dedupe_step.
  destruct (normalize_article _ _ _) as [norm|] eqn:En; simpl; [|done].
  destruct (subscript norm "id") as [key|]; simpl; [|done].
  assert (Hset : (k, r) ∈ seen_set seen key norm → (k, r) ∈ seen ∨ Ok norm = Ok r).
  { intros [[= -> ->]|Hin]%seen_set_elem_of_1; auto. }
  destruct (seen_get seen key) as [e|]; [|by intros [= <-]].
  case_bool_decide; [by intros [= <-]|].
  destruct (content_len e); simpl; [|done].
  destruct (content_len norm); simpl; [|done].
  destruct (_ <? _)%nat; intros [= <-]; auto.
Qed.

Lemma dedupe_loop_output clock rest :
  ∀ pre seen seen',
    (∀ k r, (k, r) ∈ seen →
       ∃ j a, (pre ++ rest) !! j = Some a ∧
              normalize_article (clock j) a (dict_get a "source") = Ok r) →
    dedupe_loop clock (length pre) seen rest = Ok seen' →
    ∀ k r, (k, r) ∈ seen' →
      ∃ j a, (pre ++ rest) !! j = Some a ∧
             normalize_article (clock j) a (dict_get a "source") = Ok r.
Proof.
  induction rest as [|a rest IH]; simpl; intros pre seen seen' Hseen.
  - by intros [= <-].
  - destruct (dedupe_step (clock (length pre)) seen a) as [seen1|] eqn:E;
      simpl; [|done].
    replace (pre ++ a :: rest) with ((pre ++ [a]) ++ rest) in *
      by by rewrite <- app_assoc.
    replace (S (length pre)) with (length (pre ++ [a]))
      by (rewrite length_app; simpl; lia).
    apply IH. intros k r Hin.
    destruct (dedupe_step_output _ _ _ _ _ _ E Hin) as [Hold|Hnew]; [eauto|].
    exists (length pre), a. split; [|done].
    rewrite <- app_assoc. simpl. by apply list_lookup_middle.
Qed.

Lemma dedupe_articles_output clock articles out r :
  dedupe_articles clock articles = Ok out → r ∈ out →
  ∃ j a, articles !! j = Some a ∧
         normalize_article (clock j) a (dict_get a "source") = Ok r.
Proof.
  unfold dedupe_articles.
  destruct (dedupe_loop clock 0 [] articles) as [seen|] eqn:E; simpl; [|done].
  intros [= <-] [[k r'] [-> Hin]]%list_elem_of_fmap. simpl.
  eapply (dedupe_loop_output clock articles [] [] seen); [|done..].
  intros ? ? H. by apply elem_of_nil in H.
Qed.

(** The annotation [source_detected_mf] is not part of what
    [normalize_article] returns, and every record [dedupe_articles] returns,
    whatever keys the input records carried, is the normalized form of an
    input and has exactly the eight keys [normalize_article] assigns; so an
    annotation attached before deduplication is absent from the output, and
    the survivors can carry it only if it is attached after. *)
Theorem dedupe_output_has_article_keys_only :
  (∀ now a src art,
     normalize_article now a src = Ok art →
     dom art = article_keys ∧ art !! "source_detected_mf" = None) ∧
  (∀ clock articles out,
     dedupe_articles clock articles = Ok out →
     ∀ r, r ∈ out →
       (∃ j a, articles !! j = Some a ∧
               normalize_article (clock j) a (dict_get a "source") = Ok r) ∧
       dom r = article_keys ∧
       (∀ k, k ∉ article_keys → r !! k = None) ∧
       r !! "source_detected_mf" = None).
Proof.
  assert (Hnorm : ∀ now a src art,
            normalize_article now a src = Ok art →
            dom art = article_keys ∧ art !! "source_detected_mf" = None).
  { intros now a src art Hdom%normalize_article_dom. split; [done|].
    apply not_elem_of_dom. rewrite Hdom. by vm_compute. }
  split; [exact Hnorm|].
  intros clock articles out E r Hr.
  destruct (dedupe_articles_output _ _ _ _ E Hr) as (j & a & Ha & En).
  destruct (Hnorm _ _ _ _ En) as [Hdom Hmf].
  split; [eauto|]. split; [done|]. split; [|done].
  intros k' Hk'. apply not_elem_of_dom. by rewrite Hdom.
Qed.

Lemma dedupe_output_has_article_keys_only_witness :
  dedupe_articles clock_at [art_annotated] = Ok [art_annotated_norm] ∧
  art_annotated !! "source_detected_mf" = Some (VList [py "HDFC AMC"]) ∧
  art_annotated_norm !! "source_detected_mf" = None.
Proof.
  split; [by_eval|]. split; [reflexivity|].
  apply (proj2 dedupe_output_has_article_keys_only clock_at [art_annotated]
           [art_annotated_norm]); [by_eval | by left].
Defined.

(** ** Substrings *)

Lemma starts_with_spec p s : starts_with p s = true ↔ ∃ post, s = p ++ post.
Proof.
  revert s. induction p as [|x p IH]; intros s; simpl.
  - split; [eauto|done].
  - destruct s as [|y s].
    + split; [done|]. by intros [post ?].
    + rewrite andb_true_iff, N.eqb_eq, IH. split.
      * intros [-> [post ->]]. eauto.
      * intros [post [= -> ->]]. eauto.
Qed.

Lemma contains_spec needle hay : contains needle hay = true ↔ occurs_in needle hay.
Proof.
  unfold occurs_in. induction hay as [|y hay IH]; simpl.
  - rewrite orb_false_r, starts_with_spec. split.
    + intros [post E]. by exists [], post.
    + intros (pre & post & E). symmetry in E.
      apply app_eq_nil in E as [-> E]. apply app_eq_nil in E as [-> ->].
      by exists [].
  - rewrite orb_true_iff, starts_with_spec, IH. split.
    + intros [[post E]|(pre & post & E)].
      * by exists [], post.
      * exists (y :: pre), post. by rewrite E.
    + intros ([|x pre] & post & E); simpl in E.
      * left. eauto.
      * right. injection E as -> E. eauto.
Qed.

(** ** The order of strings *)

Lemma str_leb_refl a : str_leb a a = true.
Proof.
  induction a as [|x a IH]; simpl; [done|].
  by rewrite N.ltb_irrefl, N.eqb_refl.
Qed.

Lemma str_leb_total a b : str_leb a b = true ∨ str_leb b a = true.
Proof.
  revert b. induction a as [|x a IH]; intros [|y b]; simpl; auto.
  destruct (N.ltb_spec x y), (N.ltb_spec y x), (N.eqb_spec x y), (N.eqb_spec y x);
    auto; lia.
Qed.

Lemma str_leb_antisym a b : str_leb a b = true → str_leb b a = true → a = b.
Proof.
  revert b. induction a as [|x a IH]; intros [|y b]; simpl; try done.
  destruct (N.ltb_spec x y), (N.ltb_spec y x), (N.eqb_spec x y), (N.eqb_spec y x);
    try done; try lia.
  intros. subst. f_equal. auto.
Qed.

Lemma str_leb_trans a b c : str_leb a b = true → str_leb b c = true → str_leb a c = true.
Proof.
  revert b c. induction a as [|x a IH]; intros [|y b] [|z c]; simpl; try done.
  destruct (N.ltb_spec x y), (N.ltb_spec y z), (N.ltb_spec x z),
    (N.eqb_spec x y), (N.eqb_spec y z), (N.eqb_spec x z); try done; try lia.
  apply IH.
Qed.

#[global] Instance str_le_refl : Reflexive str_le.
Proof. intros a. apply str_leb_refl. Qed.

#[global] Instance str_le_total : Total str_le.
Proof. intros a b. apply str_leb_total. Qed.

#[global] Instance str_le_antisym : AntiSymm (=) str_le.
Proof. intros a b. apply str_leb_antisym. Qed.

#[global] Instance str_le_trans : Transitive str_le.
Proof. intros a b c. apply str_leb_trans. Qed.

(** ** [sorted(list(set(found)))] *)

Lemma sorted_set_elem_of found x : x ∈ sorted_set found ↔ x ∈ found.
Proof.
  unfold sorted_set. by rewrite merge_sort_Permutation, elem_of_remove_dups.
Qed.

Lemma sorted_set_NoDup found : NoDup (sorted_set found).
Proof.
  unfold sorted_set. rewrite merge_sort_Permutation. apply NoDup_remove_dups.
Qed.

Lemma sorted_set_Sorted found : Sorted str_le (sorted_set found).
Proof. apply Sorted_merge_sort, _. Qed.

(** Whatever order a set is listed in, sorting it gives one list: any
    duplicate-free sorted list with the elements of [found] is
    [sorted_set found]. *)
Lemma sorted_set_unique found l :
  NoDup l → Sorted str_le l → (∀ x, x ∈ l ↔ x ∈ found) → l = sorted_set found.
Proof.
  intros Hnd Hs Hel. apply (Sorted_unique str_le); [done|apply sorted_set_Sorted|].
  apply NoDup_Permutation; [done|apply sorted_set_NoDup|].
  intros x. by rewrite sorted_set_elem_of.
Qed.

Lemma sorted_set_ext found found' :
  (∀ x, x ∈ found ↔ x ∈ found') → sorted_set found = sorted_set found'.
Proof.
  intros H. apply sorted_set_unique;
    [apply sorted_set_NoDup|apply sorted_set_Sorted|].
  intros x. by rewrite sorted_set_elem_of.
Qed.

(** ** [str.join] *)

Lemma str_join_three sep t d c :
  str_join sep [VStr t; VStr d; VStr c] = Ok (t ++ sep ++ d ++ sep ++ c).
Proof. reflexivity. Qed.

(** ** The mention detector *)

Section DetectorFacts.

Variable lower : str → str.

Lemma found_elem_of text mf_list acc x :
  x ∈ fold_left (λ found mf,
                   if contains (lower mf) text then found ++ [mf] else found)
                mf_list acc ↔
  x ∈ acc ∨ (x ∈ mf_list ∧ contains (lower x) text = true).
Proof.
  revert acc. induction mf_list as [|mf mf_list IH]; intros acc; simpl.
  - split; [auto|]. intros [?|[[]%elem_of_nil _]]; done.
  - rewrite IH. destruct (contains (lower mf) text) eqn:E.
    + rewrite elem_of_app, list_elem_of_singleton, elem_of_cons. split.
      * intros [[?| ->]|[? ?]]; auto.
      * intros [?|[[->|?] ?]]; auto.
    + rewrite elem_of_cons. split.
      * intros [?|[? ?]]; auto.
      * intros [?|[[->|?] ?]]; auto. congruence.
Qed.

Lemma detect_eq article mf_list t d c :
  dict_get_or article "title" empty_str = VStr t →
  dict_get_or article "description" empty_str = VStr d →
  dict_get_or article "content" empty_str = VStr c →
  detect_mutual_fund_mentions lower article mf_list =
  Ok (sorted_set (fold_left
        (λ found mf,
           if contains (lower mf) (lower (haystack t d c))
           then found ++ [mf] else found) mf_list [])).
Proof.
  intros Et Ed Ec. unfold detect_mutual_fund_mentions.
  by rewrite Et, Ed, Ec, str_join_three.
Qed.

(** C5: on an Article whose [title], [description] and [content] are
    strings (a missing one counting as empty), the detector returns exactly
    the candidate names whose lowercase form occurs in the lowercase form of
    the three fields joined by the separator; the list has no duplicates,
    is in ascending lexicographic order, and is the same for every
    reordering of the candidate list. *)
Theorem detect_returns_sorted_matches article mf_list t d c :
  dict_get_or article "title" empty_str = VStr t →
  dict_get_or article "description" empty_str = VStr d →
  dict_get_or article "content" empty_str = VStr c →
  ∃ found,
    detect_mutual_fund_mentions lower article mf_list = Ok found ∧
    (∀ mf, mf ∈ found ↔
           mf ∈ mf_list ∧ occurs_in (lower mf) (lower (haystack t d c))) ∧
    NoDup found ∧
    Sorted str_le found ∧
    (∀ mf_list', mf_list' ≡ₚ mf_list →
       detect_mutual_fund_mentions lower article mf_list' = Ok found).
Proof.
  intros Et Ed Ec. eexists. split; [by apply detect_eq|].
  split; [|split; [apply sorted_set_NoDup|split; [apply sorted_set_Sorted|]]].
  - intros mf. rewrite sorted_set_elem_of, found_elem_of, contains_spec.
    split; [intros [[]%elem_of_nil|?]; done | auto].
  - intros mf_list' Hperm. rewrite (detect_eq _ _ _ _ _ Et Ed Ec). f_equal.
    apply sorted_set_ext. intros x. rewrite !found_elem_of.
    by rewrite Hperm.
Qed.

Lemma contains_two_spaces n :
  contains n (py "  ") = true → n = [] ∨ n = py " " ∨ n = py "  ".
Proof.
  destruct n as [|x [|y [|z n]]]; simpl; auto.
  - rewrite !andb_true_r, !orb_false_r, orb_diag. intros ->%N.eqb_eq. auto.
  - rewrite !andb_true_r, !andb_false_r, !orb_false_r.
    intros [->%N.eqb_eq ->%N.eqb_eq]%andb_true_iff. auto.
  - by rewrite !andb_false_r.
Qed.

(** C8, as the code has it: the detector returns the empty list for every
    Article (with string fields) when the candidate list is empty; and for
    an Article whose [title], [description] and [content] are all empty
    it returns the empty list for every candidate list none of whose names
    lowercases to the empty string, to one space or to two spaces: the text
    searched is then the two separators. *)
Theorem detect_nothing_to_find article mf_list t d c :
  lower_on_ascii lower →
  dict_get_or article "title" empty_str = VStr t →
  dict_get_or article "description" empty_str = VStr d →
  dict_get_or article "content" empty_str = VStr c →
  (mf_list = [] →
   detect_mutual_fund_mentions lower article mf_list = Ok []) ∧
  (t = [] → d = [] → c = [] →
   (∀ mf, mf ∈ mf_list →
          lower mf ≠ [] ∧ lower mf ≠ py " " ∧ lower mf ≠ py "  ") →
   detect_mutual_fund_mentions lower article mf_list = Ok []).
Proof.
  intros Hlower Et Ed Ec. rewrite (detect_eq _ _ _ _ _ Et Ed Ec). split.
  - by intros ->.
  - intros -> -> -> Hmf.
    replace (sorted_set _) with (sorted_set []); [done|].
    apply sorted_set_ext. intros x. rewrite found_elem_of.
    split; [auto|]. intros [?|[Hx Hc]]; [done|]. exfalso.
    assert (Hsp : lower (haystack [] [] []) = py "  ").
    { rewrite Hlower; [done|]. repeat constructor. }
    rewrite Hsp in Hc. apply contains_two_spaces in Hc.
    destruct (Hmf x Hx) as (? & ? & ?). by destruct Hc as [?|[?|?]].
Qed.

(** Two separators are a candidate that every [lower] finds in the text of
    a blank Article. *)
Lemma detect_blank_two_spaces :
  detect_mutual_fund_mentions lower blank_article [py "  "] = Ok [py "  "].
Proof.
  rewrite (detect_eq blank_article _ [] [] []) by reflexivity.
  simpl. change (haystack [] [] []) with (py "  ").
  assert (contains (lower (py "  ")) (lower (py "  ")) = true) as ->.
  { apply contains_spec. exists [], []. by rewrite app_nil_r. }
  reflexivity.
Qed.

(** *** The fetch session *)

Lemma collect_annotated clock label mf_list fetched :
  ∀ i all_articles,
    Forall annotated all_articles →
    Forall annotated (collect lower clock i label mf_list fetched all_articles).
Proof.
  induction fetched as [|a fetched IH]; simpl; intros i all_articles Hall; [done|].
  destruct (annotate _ _ _ _ _) as [x|] eqn:E; [|done].
  apply IH, Forall_app. split; [done|]. apply Forall_singleton.
  unfold annotate in E.
  destruct (normalize_article _ _ _) as [a_norm|] eqn:En; simpl in E; [|done].
  destruct (detect_mutual_fund_mentions _ _ _) as [mentions|]; simpl in E; [|done].
  injection E as <-. by exists (clock i), a, (VStr label), a_norm, mentions.
Qed.

(** In the fetch session the annotation is attached before
    [dedupe_articles] runs, which normalizes its input again: no surviving
    record carries the annotation, and every one has the empty link. *)
Lemma fetch_session_survivors clock_n clock_g clock_d mf_list n_articles
    g_articles combined r :
  fetch_session lower clock_n clock_g clock_d mf_list n_articles g_articles
    = Ok combined →
  r ∈ combined →
  r !! "source_detected_mf" = None ∧ r !! "source_url" = Some empty_str.
Proof.
  unfold fetch_session. intros E Hr.
  destruct (dedupe_articles_output _ _ _ _ E Hr) as (j & b & Hb & En).
  split.
  { apply not_elem_of_dom. rewrite (normalize_article_dom _ _ _ _ En).
    by vm_compute. }
  assert (Hann : annotated b).
  { eapply Forall_forall; [|by eapply list_elem_of_lookup_2].
    apply collect_annotated, collect_annotated. constructor. }
  destruct Hann as (now & a & src & a_norm & mentions & Ea & ->).
  rewrite (normalize_article_ext _ _ a_norm) in En.
  - destruct (renormalize now a src a_norm (clock_d j)
                (dict_get (<["source_detected_mf":=VList mentions]> a_norm) "source") Ea)
      as (t & bs & art' & _ & _ & En' & _ & _ & _ & Hu & _).
    rewrite En' in En. by injection En as <-.
  - intros k Hk. apply lookup_insert_ne. intros <-.
    unfold read_keys in Hk. set_solver.
Qed.

End DetectorFacts.

Lemma ascii_lower_on_ascii : lower_on_ascii ascii_lower.
Proof. by intros s _. Qed.

Lemma detect_returns_sorted_matches_witness :
  dict_get_or news_article "title" empty_str = VStr (py "hdfc amc announced a new scheme") ∧
  detect_mutual_fund_mentions ascii_lower news_article news_candidates =
    Ok [py "Axis Mutual Fund"; py "HDFC AMC"; py "SBI Mutual Fund"] ∧
  detect_mutual_fund_mentions ascii_lower news_article (rev news_candidates) =
    Ok [py "Axis Mutual Fund"; py "HDFC AMC"; py "SBI Mutual Fund"].
Proof.
  split; [reflexivity|].
  destruct (detect_returns_sorted_matches ascii_lower news_article news_candidates
              (py "hdfc amc announced a new scheme") (py "SBI Mutual Fund follows")
              (py "Axis Mutual Fund and again Axis Mutual Fund")
              eq_refl eq_refl eq_refl)
    as (found & E & _ & _ & _ & Hperm).
  assert (E' : detect_mutual_fund_mentions ascii_lower news_article news_candidates =
               Ok [py "Axis Mutual Fund"; py "HDFC AMC"; py "SBI Mutual Fund"])
    by by_eval.
  split; [exact E'|].
  rewrite (Hperm (rev news_candidates) (Permutation_sym (Permutation_rev _))).
  by rewrite <- E, E'.
Defined.

Lemma detect_nothing_to_find_witness :
  lower_on_ascii ascii_lower ∧
  detect_mutual_fund_mentions ascii_lower blank_article
    [py "HDFC AMC"; py "SBI Mutual Fund"] = Ok [].
Proof.
  split; [exact ascii_lower_on_ascii|].
  apply (detect_nothing_to_find ascii_lower blank_article
           [py "HDFC AMC"; py "SBI Mutual Fund"] [] [] []
           ascii_lower_on_ascii eq_refl eq_refl eq_refl);
    [reflexivity..|].
  intros mf Hmf.
  apply elem_of_cons in Hmf as [->|Hmf]; [by vm_compute|].
  apply elem_of_cons in Hmf as [->|Hmf]; [by vm_compute|].
  by apply elem_of_nil in Hmf.
Defined.

(** C8, as stated, fails: a candidate list holding one space is not empty,
    and for the blank Article the detector returns it, since the text
    searched is the two separators; so does the list holding the empty
    string. *)
Lemma detect_blank_finds_space :
  detect_mutual_fund_mentions ascii_lower blank_article [py " "] = Ok [py " "] ∧
  detect_mutual_fund_mentions ascii_lower blank_article [[]] = Ok [[]] ∧
  [py " "] ≠ [] ∧
  dict_get blank_article "title" = VStr [] ∧
  dict_get blank_article "description" = VStr [] ∧
  dict_get blank_article "content" = VStr [].
Proof. repeat split; try by_eval. done. Qed.

(** C6 in the fetch session of [app.py]: the annotation is attached to
    every collected Article before [dedupe_articles] runs (lines 63 and 74),
    and no surviving Article carries it afterwards (nor its link), although
    the display reads it from the survivors. *)
Lemma fetch_session_loses_annotation :
  map (λ x, x !! "source_detected_mf")
      (collect ascii_lower clock_at 0 (py "GoogleNewsRSS") news_candidates
               [news_article] [])
  = [Some (VList [py "Axis Mutual Fund"; py "HDFC AMC"; py "SBI Mutual Fund"])] ∧
  (combined ← fetch_session ascii_lower clock_at clock_at clock_at
                 news_candidates [] [news_article];
   Ok (map (λ r, (dict_get r "title", r !! "source_detected_mf")) combined))
  = Ok [(VStr (py "hdfc amc announced a new scheme"), None)].
Proof. split; by_eval. Qed.

(** The session on the two records of the spec's scenario, one per
    channel: one Article survives, with the longer content, the label of the
    second channel, no link and no annotation. *)
Example fetch_session_scenario :
  (combined ← fetch_session ascii_lower clock_at clock_at clock_at
                 news_candidates [raw_short] [raw_long];
   Ok (map (λ r, (dict_get r "content", dict_get r "source",
                  dict_get r "source_url", r !! "source_detected_mf")) combined))
  = Ok [(VStr (py "a much longer article body here"), VStr (py "GoogleNewsRSS"),
         VStr [], None)].
Proof. by_eval. Qed.

(** * Further properties of the code *)

(** ** [normalize_article]: when it raises, and what *)

Lemma encodable_dec s : encodable s ∨ ¬ encodable s.
Proof.
  destruct (utf8 s) eqn:E.
  - left. apply utf8_is_Some. eauto.
  - right. intros [x Hx]%utf8_is_Some. congruence.
Qed.


(** X2: Whatever objects the raw record holds, an Article that
    [normalize_article] returns has strings for [title], [description],
    [source_url], [summary] and [id], and a string for [content] too when its
    description is empty; [content] beside a non-empty description,
    [published] and [source] are passed on as they come. *)
Theorem normalize_article_output_strings now a src art :
  normalize_article now a src = Ok art →
  ∃ t d u sm i,
    art !! "title" = Some (VStr t) ∧ art !! "description" = Some (VStr d) ∧
    art !! "source_url" = Some (VStr u) ∧ art !! "summary" = Some (VStr sm) ∧
    art !! "id" = Some (VStr i) ∧
    art !! "content" = Some (content_of a) ∧
    art !! "published" = Some (published_of now a) ∧
    art !! "source" = Some (source_of a src) ∧
    (d = [] → ∃ c, art !! "content" = Some (VStr c)).
Proof.
  intros (t & u & sm & bs & Et & Eu & Esm & Ebs & ->)%normalize_article_ok.
  assert (Hd : ∃ d, description_of a = VStr d ∧
                    (d = [] → summary_source a = content_of a)).
  { unfold summary_source in *. destruct (truthy (description_of a)) eqn:Ht.
    - exists sm. split; [done|]. intros ->. by rewrite Esm in Ht.
    - unfold description_of in *.
      destruct (por_empty_cases (dict_get a "description")) as [[H1 _]|[_ H2]];
        [congruence|]. exists []. by rewrite H2. }
  destruct Hd as (d & Ed & Hc).
  exists t, d, u, (take 300 sm ++ py "..."), (Sha256.hexdigest bs).
  unfold article. simplify_map_eq. rewrite Ed. repeat split; try done.
  intros Hnil. exists sm. f_equal. rewrite <- Esm. symmetry. by apply Hc.
Qed.

Lemma normalize_article_output_strings_witness :
  normalize_article clock0 (<["content" := VInt 7]> raw_first) VNone =
    Ok (returned_record
          (normalize_article clock0 (<["content" := VInt 7]> raw_first) VNone)) ∧
  returned_record
    (normalize_article clock0 (<["content" := VInt 7]> raw_first) VNone)
    !! "content" = Some (VInt 7) ∧
  ∃ d, returned_record
         (normalize_article clock0 (<["content" := VInt 7]> raw_first) VNone)
         !! "description" = Some (VStr d).
Proof.
  split; [by_eval|]. split; [by_eval|].
  destruct (normalize_article_output_strings clock0
              (<["content" := VInt 7]> raw_first) VNone
              (returned_record
                 (normalize_article clock0 (<["content" := VInt 7]> raw_first) VNone))
              ltac:(by_eval))
    as (t & d & u & sm & i & _ & Hd & _).
  exists d. exact Hd.
Defined.

(** ** Normalizing an Article again, in general *)

Lemma por_same x : por x x = x.
Proof. unfold por. by destruct (truthy x). Qed.

Lemma normalize_article_of_article now t d c u p s sm i x bs :
  por d empty_str = d → por c d = c → truthy p = true →
  por (por s s) empty_str = s →
  (if truthy d then d else c) = VStr x → utf8 t = Some bs →
  normalize_article now (article (VStr t) d c u p s sm i) s =
  Ok (article (VStr t) d c empty_str p s (VStr (take 300 x ++ py "..."))
        (VStr (Sha256.hexdigest bs))).
Proof.
  intros Hd Hc Hp Hs Hx Hbs.
  destruct (dict_get_article (VStr t) d c u p s sm i)
    as (Gt & Gd & Gc & Gh & Gs & Gu & Gl).
  set (art := article (VStr t) d c u p s sm i) in *.
  assert (Gp : dict_get art "published" = p)
    by (unfold dict_get, art, article; by simplify_map_eq).
  assert (Gpa : dict_get art "publishedAt" = VNone)
    by (unfold dict_get, art, article; by simplify_map_eq).
  assert (Gso : dict_get art "source" = s)
    by (unfold dict_get, art, article; by simplify_map_eq).
  assert (Ed : description_of art = d) by (unfold description_of; by rewrite Gd).
  assert (Ec : content_of art = c).
  { unfold content_of. by rewrite Ed, Gc, Gs, por_VNone_r. }
  apply normalize_article_ok. exists t, [], x, bs.
  split. { unfold title_of. rewrite Gt, Gh, por_VNone_r. unfold por.
           by destruct (truthy (VStr t)) eqn:E; [|destruct t]. }
  split. { unfold source_url_of. by rewrite Gu, Gl. }
  split. { unfold summary_source. by rewrite Ed, Ec. }
  split. { by rewrite app_nil_r. }
  rewrite Ed, Ec. f_equal.
  - unfold published_of. rewrite Gp, Gpa, por_VNone_r. symmetry. by apply por_truthy.
  - unfold source_of. by rewrite Gso.
Qed.

(** X3: Normalizing an Article again with its own source, as [dedupe_articles]
    does, changes two keys and no other: [source_url] becomes the empty
    string and [id] the hash of the title alone; normalizing the result once
    more changes nothing. (The Article has a non-empty [published], which
    holds as soon as the record had a date or the clock reading is not
    empty.) *)
Theorem renormalize_changes_link_and_id now a src art now1 now2 :
  normalize_article now a src = Ok art →
  truthy (dict_get art "published") = true →
  ∃ t bs art1,
    art !! "title" = Some (VStr t) ∧ utf8 t = Some bs ∧
    normalize_article now1 art (dict_get art "source") = Ok art1 ∧
    art1 = <["id" := VStr (Sha256.hexdigest bs)]>
             (<["source_url" := empty_str]> art) ∧
    normalize_article now2 art1 (dict_get art1 "source") = Ok art1.
Proof.
  intros (t & u & sm & bs & Et & Eu & Esm & Ebs & ->)%normalize_article_ok Hp.
  assert (is_Some (utf8 t)) as [bs' Ebs'].
  { apply utf8_is_Some. apply mk_is_Some, utf8_is_Some in Ebs.
    by apply Forall_app in Ebs as [? _]. }
  set (d := description_of a) in *. set (c := content_of a) in *.
  set (p := published_of now a) in *. set (s := source_of a src) in *.
  assert (Hp' : truthy p = true).
  { revert Hp. unfold dict_get, article. by simplify_map_eq. }
  assert (Hd : por d empty_str = d) by apply por_empty_idem.
  assert (Hc : por c d = c) by apply por_absorb.
  assert (Hs : por (por s s) empty_str = s).
  { rewrite por_same. apply por_empty_idem. }
  assert (Gso : ∀ u' sm' i', dict_get (article (VStr t) d c u' p s sm' i') "source" = s).
  { intros. unfold dict_get, article. by simplify_map_eq. }
  exists t, bs'. eexists. split; [by unfold article; simplify_map_eq|].
  split; [done|]. rewrite !Gso. split; [|split].
  - by apply normalize_article_of_article.
  - unfold article. apply map_eq. intros k. rewrite !lookup_insert.
    repeat case_decide; congruence.
  - by apply normalize_article_of_article.
Qed.

Lemma renormalize_changes_link_and_id_witness :
  normalize_article clock0 raw_short VNone = Ok art_short ∧
  truthy (dict_get art_short "published") = true ∧
  ∃ t bs art1,
    art_short !! "title" = Some (VStr t) ∧ utf8 t = Some bs ∧
    normalize_article clock1 art_short (dict_get art_short "source") = Ok art1 ∧
    art1 = <["id" := VStr (Sha256.hexdigest bs)]>
             (<["source_url" := empty_str]> art_short) ∧
    normalize_article clock1 art1 (dict_get art1 "source") = Ok art1.
Proof.
  split; [by_eval|]. split; [reflexivity|].
  exact (renormalize_changes_link_and_id clock0 raw_short VNone art_short
           clock1 clock1 ltac:(by_eval) eq_refl).
Defined.

(** ** [detect_mutual_fund_mentions]: when it raises *)

(** X4: The detector returns exactly when each of [title], [description] and
    [content] is missing or a string; when one of them is present and
    anything else ([None] included, as in a record straight from a fetcher)
    it raises [TypeError], whatever the candidates. *)
Theorem detect_returns_iff lower article mf_list :
  ((∃ found, detect_mutual_fund_mentions lower article mf_list = Ok found) ↔
   ∀ k, k ∈ detect_keys → ∃ s, dict_get_or article k empty_str = VStr s) ∧
  ((∃ k v, k ∈ detect_keys ∧ article !! k = Some v ∧ ∀ s, v ≠ VStr s) →
   detect_mutual_fund_mentions lower article mf_list = Raise TypeError).
Proof.
  unfold detect_mutual_fund_mentions, detect_keys.
  destruct (dict_get_or article "title" empty_str) as [| | |t|] eqn:Et;
  destruct (dict_get_or article "description" empty_str) as [| | |d|] eqn:Ed;
  destruct (dict_get_or article "content" empty_str) as [| | |c|] eqn:Ec;
  simpl.
  all: split;
    [ split;
      [ intros [found Hf]; try done; intros k Hk;
        repeat (apply elem_of_cons in Hk as [->|Hk]); eauto;
        by apply elem_of_nil in Hk
      | intros H; try (by eexists);
        (destruct (H "title") as [? ?]; [set_solver|]);
        (destruct (H "description") as [? ?]; [set_solver|]);
        (destruct (H "content") as [? ?]; [set_solver|]); congruence ]
    | intros (k & v & Hk & Hv & Hns); try done;
      exfalso;
      repeat (apply elem_of_cons in Hk as [->|Hk]);
      try (by apply elem_of_nil in Hk);
      unfold dict_get_or in *; rewrite Hv in *; simpl in *;
      simplify_eq; by eapply Hns ].
Qed.

(** ** [dedupe_articles]: order and size of the result *)

Lemma seen_get_Some_key seen k r : seen_get seen k = Some r → k ∈ seen.*1.
Proof.
  intros H. destruct (decide (k ∈ seen.*1)) as [|Hn]; [done|].
  apply seen_get_None in Hn. congruence.
Qed.

Lemma first_ids_snoc l x :
  first_ids (l ++ [x]) =
  if decide (x ∈ first_ids l) then first_ids l else first_ids l ++ [x].
Proof. unfold first_ids. by rewrite fold_left_app. Qed.

Lemma first_ids_spec l :
  NoDup (first_ids l) ∧ (∀ x, x ∈ first_ids l ↔ x ∈ l) ∧
  (length (first_ids l) ≤ length l)%nat.
Proof.
  induction l as [|x l IH] using rev_ind.
  - split; [constructor|]. split; [done|]. reflexivity.
  - destruct IH as (Hnd & Hel & Hlen). rewrite first_ids_snoc.
    rewrite length_app. simpl. case_decide as Hx.
    + split; [done|]. split; [|lia]. intros y. rewrite elem_of_app, Hel.
      rewrite list_elem_of_singleton. split; [auto|].
      intros [?| ->]; [done|]. by apply Hel.
    + split; [|split].
      * apply NoDup_app. split; [done|]. split; [|apply NoDup_singleton].
        intros y Hy ->%list_elem_of_singleton. done.
      * intros y. by rewrite !elem_of_app, Hel.
      * rewrite length_app. simpl. lia.
Qed.

Lemma dedupe_step_keys now seen a seen' :
  (∀ k r, (k, r) ∈ seen → rid r = k) →
  dedupe_step now seen a = Ok seen' →
  ∃ n, normalize_article now a (dict_get a "source") = Ok n ∧
       seen'.*1 = (if decide (rid n ∈ seen.*1) then seen.*1
                   else seen.*1 ++ [rid n]) ∧
       (∀ k r, (k, r) ∈ seen' → rid r = k).
Proof.
  intros Hrid. unfold dedupe_step.
  destruct (normalize_article _ _ _) as [n|] eqn:En; simpl; [|done].
  unfold subscript. destruct (n !! "id") as [key|] eqn:Ek; simpl; [|done].
  assert (Hkey : rid n = key) by (unfold rid, dict_get; by rewrite Ek).
  intros Hstep. exists n. split; [done|]. revert Hstep. rewrite Hkey.
  assert (Hset :
      (seen_set seen key n).*1 =
        (if decide (key ∈ seen.*1) then seen.*1 else seen.*1 ++ [key]) ∧
      (∀ k r, (k, r) ∈ seen_set seen key n → rid r = k)).
  { split.
    - case_decide.
      + by apply seen_set_keys_present.
      + rewrite seen_set_keys_fresh, fmap_app by done. done.
    - intros k r [[= -> ->]|Hin]%seen_set_elem_of_1; auto. }
  assert (Hsame : key ∈ seen.*1 →
      seen.*1 = (if decide (key ∈ seen.*1) then seen.*1 else seen.*1 ++ [key]) ∧
      (∀ k r, (k, r) ∈ seen → rid r = k)).
  { intros Hin. by rewrite decide_True. }
  destruct (seen_get seen key) as [e|] eqn:Hget; [|intros [= <-]; auto].
  apply seen_get_Some_key in Hget.
  case_bool_decide; [intros [= <-]; auto|].
  destruct (content_len e); simpl; [|done].
  destruct (content_len n); simpl; [|done].
  destruct (_ <? _)%nat; intros [= <-]; auto.
Qed.

Lemma dedupe_loop_keys clock articles :
  ∀ i seen seen',
    (∀ k r, (k, r) ∈ seen → rid r = k) →
    dedupe_loop clock i seen articles = Ok seen' →
    ∃ norms,
      normalized clock i articles norms ∧
      seen'.*1 = fold_left (λ acc x, if decide (x ∈ acc) then acc else acc ++ [x])
                   (rid <$> norms) seen.*1 ∧
      (∀ k r, (k, r) ∈ seen' → rid r = k).
Proof.
  induction articles as [|a articles IH]; simpl; intros i seen seen' Hrid.
  - intros [= <-]. exists []. split; [|done]. split; [done|].
    intros j a Hj. by rewrite lookup_nil in Hj.
  - destruct (dedupe_step (clock i) seen a) as [seen1|] eqn:E; simpl; [|done].
    destruct (dedupe_step_keys _ _ _ _ Hrid E) as (n & En & Hkeys & Hrid1).
    intros Eloop.
    destruct (IH _ _ _ Hrid1 Eloop) as (norms & [Hlen Hnorms] & Hk & Hrid').
    exists (n :: norms). split; [|split; [|done]].
    + split; [simpl; by rewrite Hlen|].
      intros [|j] b Hb; simpl in *.
      * injection Hb as <-. exists n. by rewrite Nat.add_0_r.
      * destruct (Hnorms j b Hb) as (m & ? & Em). exists m. split; [done|].
        by replace (i + S j)%nat with (S i + j)%nat by lia.
    + simpl. by rewrite Hk, Hkeys.
Qed.

Lemma dedupe_articles_ids clock articles out :
  dedupe_articles clock articles = Ok out →
  ∃ norms,
    normalized clock 0 articles norms ∧
    rid <$> out = first_ids (rid <$> norms).
Proof.
  unfold dedupe_articles.
  destruct (dedupe_loop clock 0 [] articles) as [seen|] eqn:E; simpl; [|done].
  intros [= <-].
  destruct (dedupe_loop_keys clock articles 0 [] seen) as (norms & Hn & Hk & Hrid);
    [by intros ? ? ?%elem_of_nil | done |].
  exists norms. split; [done|]. unfold first_ids. simpl in Hk. rewrite <- Hk.
  clear -Hrid. induction seen as [|[k r] seen IH]; simpl; [done|].
  f_equal; [apply Hrid; by left|]. apply IH. intros ? ? ?. apply Hrid. by right.
Qed.

(** X5: Whenever [dedupe_articles] returns, the records come in the order in
    which their [id]s first occur among the normalized inputs (the key order
    of the dictionary [seen]): a replacing record takes the place of the one
    it replaces. *)
Theorem dedupe_articles_order clock articles out :
  dedupe_articles clock articles = Ok out →
  ∃ norms,
    normalized clock 0 articles norms ∧
    rid <$> out = first_ids (rid <$> norms).
Proof.
  unfold dedupe_articles.
  destruct (dedupe_loop clock 0 [] articles) as [seen|] eqn:E; simpl; [|done].
  intros [= <-].
  destruct (dedupe_loop_keys clock articles 0 [] seen) as (norms & Hn & Hk & Hrid);
    [by intros ? ? ?%elem_of_nil | done |].
  exists norms. split; [done|]. unfold first_ids. simpl in Hk. rewrite <- Hk.
  clear -Hrid. induction seen as [|[k r] seen IH]; simpl; [done|].
  f_equal; [apply Hrid; by left|]. apply IH. intros ? ? ?. apply Hrid. by right.
Qed.

Lemma dedupe_articles_order_witness :
  dedupe_articles clock_at two_id_batch =
    Ok (returned (dedupe_articles clock_at two_id_batch)) ∧
  map (λ r, (dict_get r "title", dict_get r "content"))
      (returned (dedupe_articles clock_at two_id_batch)) =
    [(VStr (py "Fund X gains"), VStr (py "a much longer article body here"));
     (VStr (py "Other news"), VStr (py "short"))] ∧
  ∃ norms,
    normalized clock_at 0 two_id_batch norms ∧
    rid <$> returned (dedupe_articles clock_at two_id_batch) =
      first_ids (rid <$> norms).
Proof.
  split; [by_eval|]. split; [by_eval|].
  exact (dedupe_articles_order clock_at two_id_batch _ ltac:(by_eval)).
Defined.

(** X6: Whenever [dedupe_articles] returns, the [id]s of the records returned
    are pairwise distinct, there are at most as many records as inputs, and
    there is none only if there was no input. *)
Theorem dedupe_articles_size clock articles out :
  dedupe_articles clock articles = Ok out →
  NoDup (rid <$> out) ∧ (length out ≤ length articles)%nat ∧
  (out = [] ↔ articles = []).
Proof.
  intros (norms & [Hlen Hnorms] & Hids)%dedupe_articles_ids.
  destruct (first_ids_spec (rid <$> norms)) as (Hnd & Hel & Hle).
  rewrite <- Hids in Hnd, Hel, Hle. rewrite !length_fmap in Hle.
  split; [done|]. split; [lia|]. split.
  - intros ->. destruct articles as [|a articles]; [done|]. exfalso.
    destruct (Hnorms 0%nat a eq_refl) as (n & Hn & _).
    assert (rid n ∈ rid <$> norms) as Hin%Hel.
    { apply list_elem_of_fmap. exists n. split; [done|].
      apply list_elem_of_lookup. eauto. }
    by apply elem_of_nil in Hin.
  - intros ->. destruct out as [|r out]; [done|]. exfalso.
    assert (rid r ∈ rid <$> norms) as Hin by (apply Hel; by left).
    destruct norms; [by apply elem_of_nil in Hin | done].
Qed.

Lemma dedupe_articles_size_witness :
  dedupe_articles clock_at two_id_batch =
    Ok (returned (dedupe_articles clock_at two_id_batch)) ∧
  length (returned (dedupe_articles clock_at two_id_batch)) = 2%nat ∧
  NoDup (rid <$> returned (dedupe_articles clock_at two_id_batch)).
Proof.
  split; [by_eval|]. split; [by_eval|].
  exact (proj1 (dedupe_articles_size clock_at two_id_batch _ ltac:(by_eval))).
Defined.

(** ** [dedupe_articles]: a record that cannot be normalized *)

Lemma dedupe_loop_app clock pre rest :
  ∀ i seen,
    dedupe_loop clock i seen (pre ++ rest) =
    seen' ← dedupe_loop clock i seen pre;
    dedupe_loop clock (i + length pre) seen' rest.
Proof.
  induction pre as [|a pre IH]; simpl; intros i seen.
  - by rewrite Nat.add_0_r.
  - destruct (dedupe_step (clock i) seen a) as [seen1|]; simpl; [|done].
    rewrite IH. by replace (S i + length pre)%nat with (i + S (length pre))%nat by lia.
Qed.

(** X7: The first record that [normalize_article] rejects makes
    [dedupe_articles] raise its exception: nothing is returned for the
    records before it, however well formed. *)
Theorem dedupe_articles_raises clock pre a rest e :
  Forall raw_ok pre →
  normalize_article (clock (length pre)) a (dict_get a "source") = Raise e →
  dedupe_articles clock (pre ++ a :: rest) = Raise e.
Proof.
  intros Hpre Ha. unfold dedupe_articles. rewrite dedupe_loop_app.
  destruct (dedupe_loop_spec clock pre 0 [] [] Hpre seen_inv_nil)
    as (seen & norms & -> & _ & _).
  simpl. unfold dedupe_step. by rewrite Ha.
Qed.

Lemma dedupe_articles_raises_witness :
  Forall raw_ok [raw_short; raw_long] ∧
  normalize_article (clock_at 2) raw_numeric (dict_get raw_numeric "source")
    = Raise TypeError ∧
  dedupe_articles clock_at ([raw_short; raw_long] ++ raw_numeric :: [raw_other])
    = Raise TypeError.
Proof.
  assert (H : Forall raw_ok [raw_short; raw_long]).
  { repeat constructor; apply raw_okb_correct; vm_compute; reflexivity. }
  split; [exact H|]. split; [by_eval|].
  exact (dedupe_articles_raises clock_at [raw_short; raw_long] raw_numeric
           [raw_other] TypeError H ltac:(by_eval)).
Defined.

(** ** [dedupe_articles]: what it reads *)

Lemma dedupe_step_ext now seen a b :
  same_read_keys a b → dedupe_step now seen a = dedupe_step now seen b.
Proof.
  intros H. unfold dedupe_step.
  rewrite (normalize_article_ext now a b) by done.
  unfold dict_get. rewrite (H "source"); [done|]. unfold read_keys. set_solver.
Qed.

(** X8: [dedupe_articles] reads of its input records only the keys
    [normalize_article] reads: two batches that agree on those keys, record
    by record, give the same result, whatever [id], [summary], [source_url]
    or other keys the records carry. *)
Theorem dedupe_articles_reads_only clock xs ys :
  Forall2 same_read_keys xs ys →
  dedupe_articles clock xs = dedupe_articles clock ys.
Proof.
  intros H. unfold dedupe_articles.
  enough (∀ i seen, dedupe_loop clock i seen xs = dedupe_loop clock i seen ys)
    as -> by done.
  induction H as [|a b xs ys Hab _ IH]; intros i seen; simpl; [done|].
  rewrite (dedupe_step_ext _ _ a b Hab).
  destruct (dedupe_step (clock i) seen b); simpl; [apply IH | done].
Qed.

Lemma dedupe_articles_reads_only_witness :
  Forall2 same_read_keys [art_annotated] [delete "id" art_short] ∧
  dedupe_articles clock_at [art_annotated] =
  dedupe_articles clock_at [delete "id" art_short].
Proof.
  assert (H : Forall2 same_read_keys [art_annotated] [delete "id" art_short]).
  { repeat constructor. intros k Hk. unfold read_keys in Hk.
    repeat (apply elem_of_cons in Hk as [->|Hk]); try reflexivity.
    by apply elem_of_nil in Hk. }
  split; [exact H|].
  exact (dedupe_articles_reads_only clock_at _ _ H).
Defined.

(** ** The fetch session: what a channel contributes *)

Lemma collect_app lower clock label mf_list fetched :
  ∀ i all_articles,
    collect lower clock i label mf_list fetched all_articles =
    all_articles ++ collect lower clock i label mf_list fetched [].
Proof.
  induction fetched as [|a fetched IH]; simpl; intros i all_articles.
  - by rewrite app_nil_r.
  - destruct (annotate _ _ _ _ _) as [x|]; [|by rewrite app_nil_r].
    rewrite (IH _ (all_articles ++ [x])), (IH _ ([] ++ [x])).
    by rewrite <- !app_assoc.
Qed.

(** X9: A channel contributes the annotated forms of its records up to the
    first one on which normalizing or detecting raises, in order, appended
    to what the earlier channel left; that record and the ones after it are
    dropped, and the exception goes no further. *)
Theorem collect_keeps_prefix lower clock i label mf_list fetched all_articles :
  ∃ outs,
    collect lower clock i label mf_list fetched all_articles = all_articles ++ outs ∧
    (length outs ≤ length fetched)%nat ∧
    (∀ j x, outs !! j = Some x →
       ∃ a, fetched !! j = Some a ∧
            annotate lower (clock (i + j)%nat) label mf_list a = Ok x) ∧
    ((length outs < length fetched)%nat →
       ∃ a e, fetched !! length outs = Some a ∧
              annotate lower (clock (i + length outs)%nat) label mf_list a = Raise e).
Proof.
  rewrite collect_app.
  exists (collect lower clock i label mf_list fetched []). split; [done|].
  revert i. induction fetched as [|a fetched IH]; intros i; simpl.
  - split; [done|]. split; [|lia]. intros j x Hj. by rewrite lookup_nil in Hj.
  - destruct (annotate lower (clock i) label mf_list a) as [x|e] eqn:E; simpl.
    + rewrite collect_app. destruct (IH (S i)) as (Hlen & Hok & Hbad).
      simpl. split; [lia|]. split.
      * intros [|j] y Hy; simpl in *.
        -- injection Hy as <-. exists a. by rewrite Nat.add_0_r.
        -- destruct (Hok j y Hy) as (b & ? & ?). exists b. split; [done|].
           by replace (i + S j)%nat with (S i + j)%nat by lia.
      * intros Hlt. destruct Hbad as (b & e & ? & ?); [lia|].
        exists b, e. split; [done|].
        by replace (i + S (length (collect lower clock (S i) label mf_list fetched [])))%nat
          with (S i + length (collect lower clock (S i) label mf_list fetched []))%nat by lia.
    + split; [lia|]. split; [intros j x Hj; by rewrite lookup_nil in Hj|].
      intros _. exists a, e. by rewrite Nat.add_0_r.
Qed.

Lemma annotate_raw_ok lower now label mf_list a :
  raw_ok a → ∃ x, annotate lower now label mf_list a = Ok x.
Proof.
  intros Hok.
  destruct (normalize_raw_ok now a (VStr label) Hok)
    as (t & u & sm & c & bs & _ & _ & _ & _ & _ & E).
  assert (∃ d, description_of a = VStr d) as [d Ed].
  { destruct Hok as [Hty _]. apply is_text_por_str, Hty. set_solver. }
  rewrite Ed in E. unfold annotate. rewrite E. simpl.
  rewrite (detect_eq lower _ mf_list t d c); [by eexists|..];
    unfold dict_get_or, article; by simplify_map_eq.
Qed.

(** X10: A channel whose records all have text fields loses none of them: each
    is normalized and annotated without an exception. *)
Theorem collect_all_text_records lower clock i label mf_list fetched all_articles :
  Forall raw_ok fetched →
  length (collect lower clock i label mf_list fetched all_articles) =
  (length all_articles + length fetched)%nat.
Proof.
  revert i all_articles.
  induction fetched as [|a fetched IH]; simpl; intros i all_articles Hok; [lia|].
  apply Forall_cons in Hok as [Ha Hok].
  destruct (annotate_raw_ok lower (clock i) label mf_list a Ha) as [x ->].
  rewrite IH by done. rewrite length_app. simpl. lia.
Qed.

Lemma collect_all_text_records_witness :
  Forall raw_ok [raw_short; raw_long] ∧
  length (collect ascii_lower clock_at 0 (py "NewsAPI") news_candidates
            [raw_short; raw_long] []) = 2%nat.
Proof.
  assert (H : Forall raw_ok [raw_short; raw_long]).
  { repeat constructor; apply raw_okb_correct; vm_compute; reflexivity. }
  split; [exact H|].
  exact (collect_all_text_records ascii_lower clock_at 0 (py "NewsAPI")
           news_candidates [raw_short; raw_long] [] H).
Defined.

(** ** The fetch session: what survives *)

Lemma fetch_session_survivor_shape lower clock_n clock_g clock_d mf_list
    n_articles g_articles combined r :
  fetch_session lower clock_n clock_g clock_d mf_list n_articles g_articles
    = Ok combined →
  r ∈ combined →
  ∃ now a src a_norm now' src',
    normalize_article now a src = Ok a_norm ∧
    normalize_article now' a_norm src' = Ok r.
Proof.
  unfold fetch_session. intros E Hr.
  destruct (dedupe_articles_output _ _ _ _ E Hr) as (j & b & Hb & En).
  assert (Hann : annotated b).
  { eapply Forall_forall; [|by eapply list_elem_of_lookup_2].
    apply collect_annotated, collect_annotated. constructor. }
  destruct Hann as (now & a & src & a_norm & mentions & Ea & ->).
  rewrite (normalize_article_ext _ _ a_norm) in En.
  - eauto 10.
  - intros k Hk. apply lookup_insert_ne. intros <-.
    unfold read_keys in Hk. set_solver.
Qed.

(** X11: In a fetch session the [id] that deduplicates is the hash of the title
    alone (the link is gone when [dedupe_articles] normalizes again), so the
    surviving Articles have pairwise distinct titles: fetched records with
    one title are merged, whatever their links. *)
Theorem fetch_session_merges_by_title lower clock_n clock_g clock_d mf_list
    n_articles g_articles combined :
  fetch_session lower clock_n clock_g clock_d mf_list n_articles g_articles
    = Ok combined →
  (∀ r, r ∈ combined →
     ∃ t bs, r !! "title" = Some (VStr t) ∧ utf8 t = Some bs ∧
             r !! "id" = Some (VStr (Sha256.hexdigest bs))) ∧
  (∀ i j r1 r2, combined !! i = Some r1 → combined !! j = Some r2 →
     r1 !! "title" = r2 !! "title" → i = j).
Proof.
  intros E.
  assert (Hshape : ∀ r, r ∈ combined →
     ∃ t bs, r !! "title" = Some (VStr t) ∧ utf8 t = Some bs ∧
             r !! "id" = Some (VStr (Sha256.hexdigest bs))).
  { intros r Hr.
    destruct (fetch_session_survivor_shape _ _ _ _ _ _ _ _ _ E Hr)
      as (now & a & src & a_norm & now' & src' & Ea & Er).
    destruct (renormalize now a src a_norm now' src' Ea)
      as (t & bs & art' & Ht & Hbs & En' & Ht' & _ & _ & _ & Hid).
    rewrite En' in Er. injection Er as <-.
    exists t, bs. by rewrite Ht'. }
  split; [done|].
  intros i j r1 r2 H1 H2 Ht.
  destruct (Hshape r1) as (t1 & bs1 & Ht1 & Hb1 & Hi1);
    [by eapply list_elem_of_lookup_2|].
  destruct (Hshape r2) as (t2 & bs2 & Ht2 & Hb2 & Hi2);
    [by eapply list_elem_of_lookup_2|].
  assert (t1 = t2) as -> by congruence.
  assert (bs1 = bs2) as -> by congruence.
  unfold fetch_session in E.
  destruct (dedupe_articles_ids _ _ _ E) as (norms & _ & Hids).
  destruct (first_ids_spec (rid <$> norms)) as (Hnd & _ & _).
  rewrite <- Hids in Hnd.
  eapply (NoDup_lookup _ i j (rid r1)); [done|..];
    rewrite list_lookup_fmap; [by rewrite H1|].
  rewrite H2. simpl. unfold rid, dict_get. by rewrite Hi1, Hi2.
Qed.

Lemma fetch_session_merges_by_title_witness :
  session_one_title = Ok (returned session_one_title) ∧
  length (returned session_one_title) = 1%nat ∧
  (∀ r, r ∈ returned session_one_title →
     ∃ t bs, r !! "title" = Some (VStr t) ∧ utf8 t = Some bs ∧
             r !! "id" = Some (VStr (Sha256.hexdigest bs))) ∧
  (∀ i j r1 r2, returned session_one_title !! i = Some r1 →
     returned session_one_title !! j = Some r2 →
     r1 !! "title" = r2 !! "title" → i = j).
Proof.
  split; [by_eval|]. split; [by_eval|].
  exact (fetch_session_merges_by_title ascii_lower clock_at clock_at clock_at
    news_candidates [raw_short] [<["url" := VStr (py "http://b/2")]> raw_long]
    (returned session_one_title) ltac:(by_eval)).
Defined.

(** X12: In every fetch session the annotation is attached before
    [dedupe_articles] normalizes the Articles again: no Article that
    survives carries [source_detected_mf], and every one has the empty
    string for [source_url]. *)
Theorem fetch_session_drops_link_and_annotation lower clock_n clock_g clock_d
    mf_list n_articles g_articles combined r :
  fetch_session lower clock_n clock_g clock_d mf_list n_articles g_articles
    = Ok combined →
  r ∈ combined →
  r !! "source_detected_mf" = None ∧ r !! "source_url" = Some empty_str.
Proof.
  unfold fetch_session. intros E Hr.
  destruct (dedupe_articles_output _ _ _ _ E Hr) as (j & b & Hb & En).
  split.
  { apply not_elem_of_dom. rewrite (normalize_article_dom _ _ _ _ En).
    by vm_compute. }
  assert (Hann : annotated b).
  { eapply Forall_forall; [|by eapply list_elem_of_lookup_2].
    apply collect_annotated, collect_annotated. constructor. }
  destruct Hann as (now & a & src & a_norm & mentions & Ea & ->).
  rewrite (normalize_article_ext _ _ a_norm) in En.
  - destruct (renormalize now a src a_norm (clock_d j)
                (dict_get (<["source_detected_mf":=VList mentions]> a_norm) "source") Ea)
      as (t & bs & art' & _ & _ & En' & _ & _ & _ & Hu & _).
    rewrite En' in En. by injection En as <-.
  - intros k Hk. apply lookup_insert_ne. intros <-.
    unfold read_keys in Hk. set_solver.
Qed.

Lemma fetch_session_drops_link_and_annotation_witness :
  session_news = Ok (returned session_news) ∧
  length (returned session_news) = 1%nat ∧
  ∀ r, r ∈ returned session_news →
    r !! "source_detected_mf" = None ∧ r !! "source_url" = Some empty_str.
Proof.
  split; [by_eval|]. split; [by_eval|]. intros r.
  exact (fetch_session_drops_link_and_annotation ascii_lower clock_at clock_at
           clock_at news_candidates [] [news_article] (returned session_news) r
           ltac:(by_eval)).
Defined.

(** ** The candidate list of the sidebar *)

Lemma is_space_table (c : N) :
  is_space c = true ↔
  c ∈ [9; 10; 11; 12; 13; 28; 29; 30; 31; 32; 0x85; 0xA0; 0x1680;
       0x2000; 0x2001; 0x2002; 0x2003; 0x2004; 0x2005; 0x2006; 0x2007; 0x2008;
       0x2009; 0x200A; 0x2028; 0x2029; 0x202F; 0x205F; 0x3000]%N.
Proof.
  unfold is_space.
  rewrite !orb_true_iff, !andb_true_iff, !N.leb_le, !N.eqb_eq.
  rewrite !elem_of_cons, elem_of_nil. lia.
Qed.

Example parse_default_mf_input :
  parse_mf_list default_mf_input =
  [py "SBI Mutual Fund"; py "HDFC AMC"; py "ICICI Prudential Mutual Fund";
   py "Axis Mutual Fund"; py "Nippon India Mutual Fund"; py "UTI Mutual Fund";
   py "Aditya Birla Sun Life Mutual Fund"].
Proof. vm_compute. reflexivity. Qed.

Example parse_untidy_input :
  parse_mf_list (py "  HDFC AMC , ,,SBI Mutual Fund,  ") =
  [py "HDFC AMC"; py "SBI Mutual Fund"].
Proof. vm_compute. reflexivity. Qed.

Lemma lstrip_spec s :
  (lstrip s = [] ↔ Forall (λ c, is_space c = true) s) ∧
  (∀ c, head (lstrip s) = Some c → is_space c = false) ∧
  (∃ pre, s = pre ++ lstrip s ∧ Forall (λ c, is_space c = true) pre).
Proof.
  induction s as [|c s (IH1 & IH2 & pre & IH3 & IH4)]; simpl.
  - split; [done|]. split; [done|]. by exists [].
  - destruct (is_space c) eqn:E.
    + split; [|split; [done|]].
      * rewrite IH1. split; [by constructor|]. by intros [_ ?]%Forall_cons.
      * exists (c :: pre). split; [simpl; congruence | by constructor].
    + split; [|split].
      * split; [done|]. intros [? _]%Forall_cons. congruence.
      * simpl. by intros ? [= <-].
      * by exists [].
Qed.

Lemma lstrip_id s : (∀ c, head s = Some c → is_space c = false) → lstrip s = s.
Proof. destruct s as [|c s]; simpl; [done|]. intros H. by rewrite (H c). Qed.

Lemma last_rev_head (s : str) : last s = head (rev s).
Proof.
  induction s as [|c s IH] using rev_ind; [done|].
  by rewrite last_snoc, rev_unit.
Qed.

Lemma strip_spec s :
  (strip s = [] ↔ Forall (λ c, is_space c = true) s) ∧
  (∀ c, head (strip s) = Some c → is_space c = false) ∧
  (∀ c, last (strip s) = Some c → is_space c = false) ∧
  (∃ pre post, s = pre ++ strip s ++ post).
Proof.
  unfold strip.
  destruct (lstrip_spec s) as (L1 & L2 & pre & L3 & L4).
  destruct (lstrip_spec (rev (lstrip s))) as (R1 & R2 & post & R3 & R4).
  set (m := lstrip (rev (lstrip s))) in *.
  assert (Hl : lstrip s = rev m ++ rev post).
  { rewrite <- (rev_involutive (lstrip s)), R3. by rewrite rev_app_distr. }
  split; [|split; [|split]].
  - split.
    + intros Hm. assert (m = []) as Hm'.
      { by rewrite <- (rev_involutive m), Hm. }
      rewrite Hm' in *. simpl in *. rewrite app_nil_r in R3.
      rewrite L3. apply Forall_app. split; [done|].
      rewrite <- (rev_involutive (lstrip s)), R3.
      apply Forall_rev. done.
    + intros Hall. assert (lstrip s = []) as Hs by by apply L1.
      subst m. by rewrite Hs.
  - intros c Hc. destruct (rev m) as [|c' rm] eqn:Erm; [done|].
    simpl in Hc. injection Hc as ->. apply L2. by rewrite Hl.
  - intros c. rewrite last_rev_head, rev_involutive. apply R2.
  - exists pre, (rev post). by rewrite <- Hl.
Qed.

Lemma strip_clean m :
  m ≠ [] → (∀ c, head m = Some c → is_space c = false) →
  (∀ c, last m = Some c → is_space c = false) → strip m = m.
Proof.
  intros _ Hh Hl. unfold strip. rewrite (lstrip_id m Hh).
  rewrite lstrip_id; [apply rev_involutive|].
  intros c. rewrite <- last_rev_head. apply Hl.
Qed.

Lemma split_on_spec sep s :
  split_on sep s ≠ [] ∧
  Forall (λ w, sep ∉ w ∧ ∀ c, c ∈ w → c ∈ s) (split_on sep s).
Proof.
  induction s as [|c s [IH1 IH2]]; simpl.
  - split; [done|]. repeat constructor; [by intros ?%elem_of_nil|done].
  - destruct (N.eqb_spec c sep) as [->|Hne].
    + split; [done|]. constructor.
      * split; [by intros ?%elem_of_nil | by intros ? ?%elem_of_nil].
      * eapply Forall_impl; [done|]. intros w [? Hw]. split; [done|].
        intros x Hx. right. auto.
    + destruct (split_on sep s) as [|w ws]; [done|]. split; [done|].
      apply Forall_cons in IH2 as [[Hw1 Hw2] IH2]. constructor.
      * split.
        -- intros [?|?]%elem_of_cons; [congruence|done].
        -- intros x [->|Hx]%elem_of_cons; [by left|]. right. auto.
      * eapply Forall_impl; [done|]. intros w' [? Hw']. split; [done|].
        intros x Hx. right. auto.
Qed.

Lemma split_on_covers sep s c :
  c ∈ s → c = sep ∨ ∃ w, w ∈ split_on sep s ∧ c ∈ w.
Proof.
  induction s as [|x s IH]; simpl; [by intros ?%elem_of_nil|].
  intros [->|Hc]%elem_of_cons.
  - destruct (N.eqb_spec x sep) as [->|Hne]; [by left|]. right.
    destruct (split_on sep s) as [|w ws]; eexists; (split; [by left|by left]).
  - destruct (IH Hc) as [->|(w & Hw & Hcw)]; [by left|]. right.
    destruct (N.eqb_spec x sep) as [->|Hne]; [exists w; split; [by right|done]|].
    destruct (split_on sep s) as [|w0 ws]; [by apply elem_of_nil in Hw|].
    apply elem_of_cons in Hw as [->|Hw].
    + exists (x :: w0). split; [by left | by right].
    + exists w. split; [by right | done].
Qed.

Lemma split_on_no_sep sep w : sep ∉ w → split_on sep w = [w].
Proof.
  induction w as [|c w IH]; simpl; [done|]. intros Hc.
  destruct (N.eqb_spec c sep) as [->|Hne]; [set_solver|].
  rewrite IH; [done|set_solver].
Qed.

Lemma split_on_app sep w rest :
  sep ∉ w → split_on sep (w ++ sep :: rest) = w :: split_on sep rest.
Proof.
  induction w as [|c w IH]; simpl; intros Hc.
  - by rewrite N.eqb_refl.
  - destruct (N.eqb_spec c sep) as [->|Hne]; [set_solver|].
    rewrite IH; [done|set_solver].
Qed.

Lemma split_on_join names :
  names ≠ [] → Forall (λ m, comma ∉ m) names →
  split_on comma (join_commas names) = names.
Proof.
  induction names as [|m names IH]; [done|]. intros _ [Hm Hall]%Forall_cons.
  destruct names as [|m' names].
  - simpl. by apply split_on_no_sep.
  - change (join_commas (m :: m' :: names))
      with (m ++ comma :: join_commas (m' :: names)).
    rewrite split_on_app by done. f_equal. by apply IH.
Qed.

Lemma parse_mf_list_elem_of input m :
  m ∈ parse_mf_list input ↔
  m ≠ [] ∧ ∃ w, w ∈ split_on comma input ∧ m = strip w.
Proof.
  unfold parse_mf_list. rewrite list_elem_of_In, filter_In, in_map_iff.
  setoid_rewrite <- list_elem_of_In. split.
  - intros [(w & <- & Hw) Hne]. split; [by destruct (strip w)|eauto].
  - intros [Hne (w & Hw & ->)]. split; [eauto|]. by destruct (strip w).
Qed.

Lemma parse_mf_list_names input m :
  m ∈ parse_mf_list input → clean_name m ∧ ∀ c, c ∈ m → c ∈ input.
Proof.
  intros [Hne (w & Hw & ->)]%parse_mf_list_elem_of.
  destruct (strip_spec w) as (_ & Hh & Hl & pre & post & Hdec).
  destruct (split_on_spec comma input) as [_ Hall].
  rewrite Forall_forall in Hall. destruct (Hall w Hw) as [Hc Hin].
  assert (Hsub : ∀ c, c ∈ strip w → c ∈ w).
  { intros c Hcs. rewrite Hdec. set_solver. }
  split; [|by auto]. split; [done|]. split; [done|]. split; [done|].
  intros ?. by apply Hc, Hsub.
Qed.

(** X13: Every name the sidebar parser returns is non-empty, has no white space
    at either end, holds no comma, and is made of characters of the text
    typed. *)
Theorem parse_mf_list_clean input m :
  m ∈ parse_mf_list input → clean_name m ∧ ∀ c, c ∈ m → c ∈ input.
Proof.
  intros [Hne (w & Hw & ->)]%parse_mf_list_elem_of.
  destruct (strip_spec w) as (_ & Hh & Hl & pre & post & Hdec).
  destruct (split_on_spec comma input) as [_ Hall].
  rewrite Forall_forall in Hall. destruct (Hall w Hw) as [Hc Hin].
  assert (Hsub : ∀ c, c ∈ strip w → c ∈ w).
  { intros c Hcs. rewrite Hdec. set_solver. }
  split; [|by auto]. split; [done|]. split; [done|]. split; [done|].
  intros ?. by apply Hc, Hsub.
Qed.

Lemma parse_mf_list_clean_witness :
  py "HDFC AMC" ∈ parse_mf_list (py "  HDFC AMC , ,,SBI Mutual Fund,  ") ∧
  clean_name (py "HDFC AMC").
Proof.
  assert (H : py "HDFC AMC" ∈ parse_mf_list (py "  HDFC AMC , ,,SBI Mutual Fund,  ")).
  { apply list_elem_of_In. vm_compute. by left. }
  split; [exact H|].
  exact (proj1 (parse_mf_list_clean _ _ H)).
Defined.

(** X14: The parser returns no name exactly when the text typed consists of
    commas and white space only (the empty text included). *)
Theorem parse_mf_list_nil_iff input :
  parse_mf_list input = [] ↔
  Forall (λ c, c = comma ∨ is_space c = true) input.
Proof.
  split.
  - intros Hnil. apply Forall_forall. intros c Hc.
    destruct (split_on_covers comma input c Hc) as [->|(w & Hw & Hcw)]; [by left|].
    right. destruct (strip w) eqn:Es.
    + apply strip_spec in Es. rewrite Forall_forall in Es. by apply Es.
    + exfalso. assert (strip w ∈ parse_mf_list input) as Hin.
      { apply parse_mf_list_elem_of. split; [by rewrite Es | eauto]. }
      rewrite Hnil in Hin. by apply elem_of_nil in Hin.
  - intros Hall. destruct (parse_mf_list input) as [|m ms] eqn:E; [done|].
    exfalso. assert (m ∈ parse_mf_list input) as Hin by (rewrite E; by left).
    apply parse_mf_list_elem_of in Hin as [Hne (w & Hw & ->)].
    apply Hne, strip_spec. apply Forall_forall. intros c Hc.
    destruct (split_on_spec comma input) as [_ Hsp].
    rewrite Forall_forall in Hsp. destruct (Hsp w Hw) as [Hnc Hin].
    rewrite Forall_forall in Hall. destruct (Hall c (Hin c Hc)) as [->|?]; done.
Qed.

(** X15: Names that are non-empty, without white space at either end and without
    comma, written with commas between them, are read back by the parser as
    they are, in the order written; the default text of the sidebar is of
    this form. *)
Theorem parse_mf_list_join names :
  Forall clean_name names → parse_mf_list (join_commas names) = names.
Proof.
  intros Hall. destruct names as [|m0 names0] eqn:En; [done|]. rewrite <- En in *.
  unfold parse_mf_list. rewrite split_on_join.
  - clear En. induction Hall as [|m names (Hne & Hh & Hl & _) _ IH]; [done|].
    simpl. rewrite (strip_clean m Hne Hh Hl).
    destruct m; [done|]. simpl. by rewrite IH.
  - by rewrite En.
  - eapply Forall_impl; [done|]. by intros m (_ & _ & _ & ?).
Qed.

Lemma clean_name_check m :
  m ≠ [] →
  match head m, last m with
  | Some c, Some c' => negb (is_space c) && negb (is_space c')
  | _, _ => false
  end && forallb (λ c, negb (c =? comma)%N) m = true →
  clean_name m.
Proof.
  intros Hne [H1 H2]%andb_true_iff. split; [done|].
  destruct (head m) as [c|] eqn:Eh; [|done].
  destruct (last m) as [c'|] eqn:El; [|done].
  apply andb_true_iff in H1 as [Hc Hc'].
  split; [intros ? [= <-]; by destruct (is_space c)|].
  split; [intros ? [= <-]; by destruct (is_space c')|].
  intros Hin. rewrite forallb_forall in H2.
  apply list_elem_of_In, H2 in Hin. by rewrite N.eqb_refl in Hin.
Qed.

Lemma parse_mf_list_join_witness :
  Forall clean_name [py "SBI Mutual Fund"; py "HDFC AMC"] ∧
  parse_mf_list (py "SBI Mutual Fund,HDFC AMC") =
  [py "SBI Mutual Fund"; py "HDFC AMC"].
Proof.
  assert (H : Forall clean_name [py "SBI Mutual Fund"; py "HDFC AMC"]).
  { repeat constructor; (apply clean_name_check; [done | vm_compute; reflexivity]). }
  split; [exact H|].
  exact (parse_mf_list_join [py "SBI Mutual Fund"; py "HDFC AMC"] H).
Defined.

(** ** The detector on ASCII text *)

Lemma is_ascii_app s1 s2 : is_ascii (s1 ++ s2) ↔ is_ascii s1 ∧ is_ascii s2.
Proof. apply Forall_app. Qed.

Lemma is_ascii_space : is_ascii (py " ").
Proof. repeat constructor. Qed.

Lemma is_ascii_haystack t d c :
  is_ascii t → is_ascii d → is_ascii c → is_ascii (haystack t d c).
Proof.
  intros Ht Hd Hc. unfold haystack.
  repeat (apply is_ascii_app; split); auto using is_ascii_space.
Qed.

Lemma ascii_lower_haystack t d c :
  ascii_lower (haystack t d c) =
  haystack (ascii_lower t) (ascii_lower d) (ascii_lower c).
Proof. unfold haystack, ascii_lower. by rewrite !map_app. Qed.

(** X16: On ASCII text the case of the letters of an Article does not matter:
    two Articles whose [title], [description] and [content] differ in the
    case of ASCII letters only get the same list of mentions. *)
Theorem detect_ignores_case lower article article' mf_list t d c t' d' c' :
  lower_on_ascii lower →
  dict_get_or article "title" empty_str = VStr t →
  dict_get_or article "description" empty_str = VStr d →
  dict_get_or article "content" empty_str = VStr c →
  dict_get_or article' "title" empty_str = VStr t' →
  dict_get_or article' "description" empty_str = VStr d' →
  dict_get_or article' "content" empty_str = VStr c' →
  is_ascii (haystack t d c) → is_ascii (haystack t' d' c') →
  ascii_lower t = ascii_lower t' → ascii_lower d = ascii_lower d' →
  ascii_lower c = ascii_lower c' →
  detect_mutual_fund_mentions lower article mf_list =
  detect_mutual_fund_mentions lower article' mf_list.
Proof.
  intros Hl Et Ed Ec Et' Ed' Ec' Ha Ha' Ht Hd Hc.
  rewrite (detect_eq lower _ _ _ _ _ Et Ed Ec),
          (detect_eq lower _ _ _ _ _ Et' Ed' Ec').
  rewrite (Hl _ Ha), (Hl _ Ha'), !ascii_lower_haystack. by rewrite Ht, Hd, Hc.
Qed.

Lemma detect_ignores_case_witness :
  lower_on_ascii ascii_lower ∧
  detect_mutual_fund_mentions ascii_lower news_article news_candidates =
  detect_mutual_fund_mentions ascii_lower
    (<["title" := VStr (py "HDFC AMC Announced A New Scheme")]> news_article)
    news_candidates.
Proof.
  split; [exact ascii_lower_on_ascii|].
  apply (detect_ignores_case ascii_lower news_article
           (<["title" := VStr (py "HDFC AMC Announced A New Scheme")]> news_article)
           news_candidates
           (py "hdfc amc announced a new scheme") (py "SBI Mutual Fund follows")
           (py "Axis Mutual Fund and again Axis Mutual Fund")
           (py "HDFC AMC Announced A New Scheme") (py "SBI Mutual Fund follows")
           (py "Axis Mutual Fund and again Axis Mutual Fund")
           ascii_lower_on_ascii);
    try reflexivity;
    apply Forall_forall; intros x Hx; apply list_elem_of_In in Hx;
    vm_compute in Hx; intuition (subst; reflexivity).
Defined.

(** X17: The three fields are searched as one text with a single space between
    them, so a name can be found across a field boundary: on ASCII text, a
    candidate made of the end of the title, a space and the beginning of the
    description is reported. *)
Theorem detect_across_fields lower article mf_list t0 x y d0 c :
  lower_on_ascii lower →
  dict_get_or article "title" empty_str = VStr (t0 ++ x) →
  dict_get_or article "description" empty_str = VStr (y ++ d0) →
  dict_get_or article "content" empty_str = VStr c →
  is_ascii (haystack (t0 ++ x) (y ++ d0) c) →
  x ++ py " " ++ y ∈ mf_list →
  ∃ found,
    detect_mutual_fund_mentions lower article mf_list = Ok found ∧
    x ++ py " " ++ y ∈ found.
Proof.
  intros Hl Et Ed Ec Ha Hin. eexists. split; [by apply detect_eq|].
  apply sorted_set_elem_of, found_elem_of. right. split; [done|].
  apply contains_spec.
  assert (Hmf : is_ascii (x ++ py " " ++ y)).
  { unfold haystack in Ha. rewrite !is_ascii_app in Ha. rewrite !is_ascii_app.
    tauto. }
  rewrite (Hl _ Ha), (Hl _ Hmf). unfold haystack, ascii_lower.
  exists (map ascii_lower_cp t0), (map ascii_lower_cp (d0 ++ py " " ++ c)).
  rewrite !map_app. by rewrite <- !app_assoc.
Qed.

Lemma detect_across_fields_witness :
  lower_on_ascii ascii_lower ∧
  ∃ found,
    detect_mutual_fund_mentions ascii_lower
      (<["title" := VStr (py "Rates cut by SBI")]>
       (<["description" := VStr (py "Mutual Fund inflows rise")]> ∅))
      [py "SBI Mutual Fund"] = Ok found ∧
    py "SBI Mutual Fund" ∈ found.
Proof.
  split; [exact ascii_lower_on_ascii|].
  apply (detect_across_fields ascii_lower _ [py "SBI Mutual Fund"]
           (py "Rates cut by ") (py "SBI") (py "Mutual Fund") (py " inflows rise") []
           ascii_lower_on_ascii); try reflexivity; [|by left].
  apply Forall_forall; intros c Hc; apply list_elem_of_In in Hc;
    vm_compute in Hc; intuition (subst; reflexivity).
Defined.

Lemma ascii_lower_cp_space c : ascii_lower_cp c = 32%N → c = 32%N.
Proof.
  unfold ascii_lower_cp.
  destruct (N.leb_spec 65 c), (N.leb_spec c 90); simpl; lia.
Qed.

(** X18: The names the sidebar parser returns are never found in an Article
    whose [title], [description] and [content] are empty, when the text typed
    is ASCII: the text searched is then two spaces, and a parsed name is
    neither empty nor begins with a space. *)
Theorem parsed_names_blank_article lower article input :
  lower_on_ascii lower → is_ascii input →
  dict_get_or article "title" empty_str = VStr [] →
  dict_get_or article "description" empty_str = VStr [] →
  dict_get_or article "content" empty_str = VStr [] →
  detect_mutual_fund_mentions lower article (parse_mf_list input) = Ok [].
Proof.
  intros Hl Ha Et Ed Ec. rewrite (detect_eq lower _ _ _ _ _ Et Ed Ec).
  replace (sorted_set _) with (sorted_set []); [done|].
  apply sorted_set_ext. intros m. rewrite found_elem_of.
  split; [auto|]. intros [?|[Hm Hc]]; [done|]. exfalso.
  destruct (parse_mf_list_names input m Hm) as [(Hne & Hh & _ & _) Hsub].
  assert (Hma : is_ascii m).
  { apply Forall_forall. intros x Hx. unfold is_ascii in Ha.
    rewrite Forall_forall in Ha. by apply Ha, Hsub. }
  rewrite (Hl _ Hma) in Hc.
  rewrite (Hl (haystack [] [] [])) in Hc by repeat constructor.
  change (ascii_lower (haystack [] [] [])) with (py "  ") in Hc.
  apply contains_two_spaces in Hc.
  destruct m as [|x m]; [done|]. simpl in Hc.
  assert (ascii_lower_cp x = 32%N) as Hx%ascii_lower_cp_space.
  { destruct Hc as [?|[Hc|Hc]]; [done|..]; by injection Hc. }
  subst x. by specialize (Hh _ eq_refl).
Qed.

Lemma parsed_names_blank_article_witness :
  lower_on_ascii ascii_lower ∧ is_ascii default_mf_input ∧
  detect_mutual_fund_mentions ascii_lower blank_article
    (parse_mf_list default_mf_input) = Ok [].
Proof.
  assert (H : is_ascii default_mf_input).
  { apply Forall_forall. intros c Hc. apply list_elem_of_In in Hc.
    vm_compute in Hc. intuition (subst; reflexivity). }
  split; [exact ascii_lower_on_ascii|]. split; [exact H|].
  exact (parsed_names_blank_article ascii_lower blank_article default_mf_input
           ascii_lower_on_ascii H eq_refl eq_refl eq_refl).
Defined.

(** ** The fetchers *)

Lemma newsapi_loop_app items :
  ∀ articles,
    newsapi_loop items articles =
    rs ← newsapi_loop items []; Ok (articles ++ rs).
Proof.
  induction items as [|a items IH]; simpl; intros articles.
  - by rewrite app_nil_r.
  - destruct (newsapi_record a) as [r|]; simpl; [|done].
    rewrite (IH (articles ++ [r])), (IH [r]).
    destruct (newsapi_loop items []); simpl; [|done]. by rewrite <- app_assoc.
Qed.

Lemma newsapi_record_ok a :
  source_ok a →
  ∃ r, newsapi_record a = Ok r ∧ dom r = fetched_keys ∧
       r !! "title" = Some (dict_get (item_fields a) "title") ∧
       r !! "description" = Some (dict_get (item_fields a) "description") ∧
       r !! "content" = Some (dict_get (item_fields a) "content") ∧
       r !! "url" = Some (dict_get (item_fields a) "url") ∧
       r !! "published" = Some (dict_get (item_fields a) "publishedAt").
Proof.
  intros Hs. unfold newsapi_record.
  destruct (item_source a) as [|v|o] eqn:E; simpl; [|by destruct (Hs v)|];
    (eexists; split; [done|]; split;
     [unfold fetched_keys; rewrite !dom_insert_L; set_solver
     |repeat split; by simplify_map_eq]).
Qed.

(** X19: [fetch_newsapi_articles] returns one record per item of the response,
    in order, each with exactly the six keys [title], [description],
    [content], [url], [published] and [source] (a missing field is [None],
    and [published] holds the item's [publishedAt]), provided every item's
    [source] is absent or an object; if the [source] of some item is anything
    else, JSON [null] included, it raises [AttributeError] and returns no
    record at all. *)
Theorem fetch_newsapi_articles_spec items :
  (Forall source_ok items →
   ∃ records,
     fetch_newsapi_articles items = Ok records ∧
     length records = length items ∧
     ∀ j a, items !! j = Some a →
       ∃ r, records !! j = Some r ∧ newsapi_record a = Ok r ∧
            dom r = fetched_keys ∧
            r !! "published" = Some (dict_get (item_fields a) "publishedAt")) ∧
  (Exists (λ a, ¬ source_ok a) items →
   fetch_newsapi_articles items = Raise AttributeError).
Proof.
  unfold fetch_newsapi_articles. split.
  - induction 1 as [|a items Ha _ IH]; simpl.
    + exists []. split; [done|]. split; [done|].
      intros j a Hj. by rewrite lookup_nil in Hj.
    + destruct (newsapi_record_ok a Ha) as (r & Er & Hdom & _ & _ & _ & _ & Hp).
      destruct IH as (records & Eloop & Hlen & Hrec).
      rewrite Er. simpl. rewrite newsapi_loop_app, Eloop. simpl.
      exists (r :: records). split; [done|]. split; [simpl; by rewrite Hlen|].
      intros [|j] b Hb; simpl in *; [|by apply Hrec].
      injection Hb as <-. eauto.
  - induction 1 as [a items Ha|a items _ IH]; simpl.
    + unfold newsapi_record.
      destruct (item_source a) as [|v|o] eqn:E; simpl; [exfalso|done|exfalso];
        apply Ha; intros v'; by rewrite E.
    + destruct (newsapi_record a) as [r|e] eqn:Er; simpl.
      * rewrite newsapi_loop_app, IH. done.
      * unfold newsapi_record in Er.
        destruct (item_source a); simpl in Er; congruence.
Qed.

Lemma fetch_newsapi_articles_spec_witness :
  fetch_newsapi_articles [item_full; item_bare] =
    Ok (returned (fetch_newsapi_articles [item_full; item_bare])) ∧
  map (λ r, (dict_get r "published", dict_get r "source"))
      (returned (fetch_newsapi_articles [item_full; item_bare])) =
    [(VStr (py "2023-05-05T10:00:00Z"), VStr (py "The Daily")); (VNone, VNone)] ∧
  fetch_newsapi_articles [item_full; item_null_source; item_bare] =
    Raise AttributeError.
Proof.
  split; [by_eval|]. split; [by_eval|].
  apply (proj2 (fetch_newsapi_articles_spec [item_full; item_null_source; item_bare])).
  apply Exists_cons_tl, Exists_cons_hd. intros H. by apply (H VNone).
Defined.

Lemma google_loop_app scrape entries :
  ∀ i articles,
    google_loop scrape i entries articles =
    rs ← google_loop scrape i entries []; Ok (articles ++ rs).
Proof.
  induction entries as [|e entries IH]; simpl; intros i articles.
  - by rewrite app_nil_r.
  - destruct (google_record _ e) as [r|]; simpl; [|done].
    rewrite (IH _ (articles ++ [r])), (IH _ [r]).
    destruct (google_loop scrape (S i) entries []); simpl; [|done].
    by rewrite <- app_assoc.
Qed.

Lemma google_record_returns scraped entry :
  (∃ r, google_record scraped entry = Ok r) ↔
  ∀ v, item_source entry = SrcPlain v → truthy v = false.
Proof.
  unfold google_record.
  destruct (item_source entry) as [|v|o]; simpl.
  - split; [done|]. by eexists.
  - destruct (truthy v) eqn:E; simpl.
    + split; [by intros [? ?]|]. intros H. specialize (H v eq_refl). congruence.
    + split; [by intros _ ? [= <-]|]. by eexists.
  - split; [done|]. intros _. destruct (negb _); simpl; by eexists.
Qed.

Lemma google_loop_spec scrape entries :
  ∀ i,
    (Forall (λ e, ∀ v, item_source e = SrcPlain v → truthy v = false) entries →
     ∃ records,
       google_loop scrape i entries [] = Ok records ∧
       length records = length entries ∧
       ∀ j e, entries !! j = Some e →
         ∃ r, records !! j = Some r ∧
              google_record (scrape (i + j)%nat (dict_get (item_fields e) "link")) e
                = Ok r) ∧
    ((∃ records, google_loop scrape i entries [] = Ok records) →
     Forall (λ e, ∀ v, item_source e = SrcPlain v → truthy v = false) entries).
Proof.
  induction entries as [|e entries IH]; intros i; simpl.
  - split; [|done]. intros _. exists []. split; [done|]. split; [done|].
    intros j e Hj. by rewrite lookup_nil in Hj.
  - destruct (IH (S i)) as [IH1 IH2]. split.
    + intros [He Hall]%Forall_cons.
      apply (google_record_returns
               (scrape i (dict_get (item_fields e) "link"))) in He as [r Er].
      destruct (IH1 Hall) as (records & Eloop & Hlen & Hrec).
      rewrite Er. simpl. rewrite google_loop_app, Eloop. simpl.
      exists (r :: records). split; [done|]. split; [simpl; by rewrite Hlen|].
      intros [|j] b Hb; simpl in *.
      * injection Hb as <-. exists r. by rewrite Nat.add_0_r.
      * destruct (Hrec j b Hb) as (r' & ? & ?). exists r'. split; [done|].
        by replace (i + S j)%nat with (S i + j)%nat by lia.
    + intros [records Hloop].
      destruct (google_record _ e) as [r|] eqn:Er; simpl in Hloop; [|done].
      rewrite google_loop_app in Hloop.
      destruct (google_loop scrape (S i) entries []) as [rs|] eqn:El;
        simpl in Hloop; [|done].
      constructor; [|apply IH2; eauto].
      eapply google_record_returns. eauto.
Qed.

(** X20: [fetch_google_news_rss] looks at the entries [feed.entries[:limit]] only
    and returns one record per such entry, in order; whatever scraping the
    pages does, it returns exactly when none of these entries has a [source]
    that is true and not an object (an absent, [null] or empty [source] is
    accepted, unlike in [fetch_newsapi_articles]). For a limit that is not
    negative the number of records is the smaller of the limit and the number
    of entries. *)
Theorem fetch_google_news_rss_spec scrape entries limit :
  ((∃ records, fetch_google_news_rss scrape entries limit = Ok records) ↔
   Forall (λ e, ∀ v, item_source e = SrcPlain v → truthy v = false)
          (slice_upto limit entries)) ∧
  (∀ records, fetch_google_news_rss scrape entries limit = Ok records →
     length records = length (slice_upto limit entries) ∧
     (0 ≤ limit → length records = Nat.min (Z.to_nat limit) (length entries)) ∧
     ∀ j r, records !! j = Some r →
       ∃ e, entries !! j = Some e ∧
            google_record (scrape j (dict_get (item_fields e) "link")) e = Ok r).
Proof.
  unfold fetch_google_news_rss.
  destruct (google_loop_spec scrape (slice_upto limit entries) 0) as [H1 H2].
  split.
  - split; [done|]. intros Hall. destruct (H1 Hall) as (records & ? & _). eauto.
  - intros records E.
    destruct (H1 (H2 (ex_intro _ records E))) as (records' & E' & Hlen & Hrec).
    rewrite E in E'. injection E' as <-.
    split; [done|]. split.
    + intros Hl. rewrite Hlen. unfold slice_upto.
      destruct (Z.leb_spec 0 limit); [|lia]. by rewrite length_take.
    + intros j r Hr.
      assert (is_Some (slice_upto limit entries !! j)) as [e He].
      { apply lookup_lt_is_Some. rewrite <- Hlen. by eapply lookup_lt_Some. }
      destruct (Hrec j e He) as (r' & Hr' & Er). simpl in Er.
      exists e. split; [|congruence].
      unfold slice_upto in He. destruct (0 <=? limit);
        by apply lookup_take_Some in He as [? _].
Qed.

Lemma fetch_google_news_rss_spec_witness :
  fetch_google_news_rss scrape_fails [item_full; item_null_source; item_bare] 2 =
    Ok (returned (fetch_google_news_rss scrape_fails
                    [item_full; item_null_source; item_bare] 2)) ∧
  length (returned (fetch_google_news_rss scrape_fails
                      [item_full; item_null_source; item_bare] 2)) =
    length (slice_upto 2 [item_full; item_null_source; item_bare]).
Proof.
  split; [by_eval|].
  exact (proj1 (proj2 (fetch_google_news_rss_spec scrape_fails
           [item_full; item_null_source; item_bare] 2) _ ltac:(by_eval))).
Defined.

(** X21: Scraping never changes more than the [content] of a record, and a
    scrape that fails counts as one that finds no paragraph: the [content]
    is then the entry's [summary] (the empty string if it has none);
    otherwise it is the text of at most six paragraphs joined by spaces. *)
Theorem google_record_content scraped entry r :
  google_record scraped entry = Ok r →
  (∀ k, k ≠ "content" →
     ∀ scraped' r', google_record scraped' entry = Ok r' → r !! k = r' !! k) ∧
  ((∀ ps, scraped = Ok ps → ps = []) →
   r !! "content" = Some (dict_get_or (item_fields entry) "summary" empty_str)) ∧
  (∀ p ps, scraped = Ok (p :: ps) →
   r !! "content" = Some (VStr (join_space (take 6 (p :: ps))))).
Proof.
  unfold google_record.
  destruct (if source_truthy (item_source entry) then _ else _) as [src|];
    simpl; [|done].
  intros [= <-]. split; [|split].
  - intros k Hk scraped' r' [= <-]. rewrite !lookup_insert.
    repeat case_decide; congruence.
  - intros Hnone. simplify_map_eq. destruct scraped as [[|p ps]|]; try done.
    by specialize (Hnone _ eq_refl).
  - intros p ps ->. by simplify_map_eq.
Qed.

Lemma google_record_content_witness :
  google_record (scrape_fails 0 VNone) item_full = Ok record_unscraped ∧
  record_unscraped !! "content" =
    Some (dict_get_or (item_fields item_full) "summary" empty_str) ∧
  dict_get_or (item_fields item_full) "summary" empty_str =
    VStr (py "Fund X gained").
Proof.
  split; [by_eval|]. split; [|reflexivity].
  apply (proj1 (proj2 (google_record_content (scrape_fails 0 VNone) item_full
           record_unscraped ltac:(by_eval)))).
  intros ps H. discriminate H.
Defined.

(** ** From a fetched item to its Article *)

Lemma normalize_article_fields now r src art :
  normalize_article now r src = Ok art →
  art !! "title" = Some (title_of r) ∧
  art !! "description" = Some (description_of r) ∧
  art !! "content" = Some (content_of r) ∧
  art !! "source_url" = Some (source_url_of r) ∧
  art !! "published" = Some (published_of now r) ∧
  art !! "source" = Some (source_of r src).
Proof.
  intros (t & u & sm & bs & Et & Eu & _ & _ & ->)%normalize_article_ok.
  rewrite Et, Eu. unfold article. repeat split; by simplify_map_eq.
Qed.

(** X22: The Article of a NewsAPI item, as the fetch session makes it: its
    fields are the item's [title], [description], [content] and [url] (the
    empty string for a missing one, the description for a missing content),
    its date is the item's [publishedAt] or else the clock reading, and its
    source the [name] of the item's source object or else the label of the
    channel. *)
Theorem newsapi_article_fields now label a r art :
  newsapi_record a = Ok r →
  normalize_article now r (VStr label) = Ok art →
  ∃ name,
    source_get (item_source a) "name" = Ok name ∧
    art !! "title" = Some (por (dict_get (item_fields a) "title") empty_str) ∧
    art !! "description" =
      Some (por (dict_get (item_fields a) "description") empty_str) ∧
    art !! "content" =
      Some (por (dict_get (item_fields a) "content")
                (por (dict_get (item_fields a) "description") empty_str)) ∧
    art !! "source_url" = Some (por (dict_get (item_fields a) "url") empty_str) ∧
    art !! "published" =
      Some (por (dict_get (item_fields a) "publishedAt") (VStr now)) ∧
    art !! "source" = Some (por (por name (VStr label)) empty_str).
Proof.
  unfold newsapi_record.
  destruct (source_get (item_source a) "name") as [name|] eqn:En; simpl; [|done].
  intros [= <-] (Ht & Hd & Hc & Hu & Hp & Hs)%normalize_article_fields.
  exists name. split; [done|].
  rewrite Ht, Hd, Hc, Hu, Hp, Hs.
  unfold title_of, description_of, content_of, source_url_of, published_of,
    source_of, description_of, dict_get.
  simplify_map_eq. by rewrite !por_VNone_r.
Qed.

Lemma newsapi_article_fields_witness :
  newsapi_record item_full = Ok record_newsapi ∧
  normalize_article clock0 record_newsapi (VStr (py "NewsAPI")) = Ok article_newsapi ∧
  article_newsapi !! "source" = Some (VStr (py "The Daily")) ∧
  article_newsapi !! "published" = Some (VStr (py "2023-05-05T10:00:00Z")).
Proof.
  split; [by_eval|]. split; [by_eval|].
  destruct (newsapi_article_fields clock0 (py "NewsAPI") item_full record_newsapi
              article_newsapi ltac:(by_eval) ltac:(by_eval))
    as (name & Hn & _ & _ & _ & _ & Hp & Hs).
  injection Hn as <-. split; [exact Hs | exact Hp].
Defined.

(** X23: The Article of a feed entry: its description is the entry's [summary]
    and its link the entry's [link]; its content is the scraped text when
    that is not empty, and the description otherwise, so scraping can only
    replace the summary by something, never by nothing. *)
Theorem google_article_fields now label scraped e r art :
  google_record scraped e = Ok r →
  normalize_article now r (VStr label) = Ok art →
  ∃ d,
    d = por (dict_get (item_fields e) "summary") empty_str ∧
    art !! "description" = Some d ∧
    art !! "source_url" = Some (por (dict_get (item_fields e) "link") empty_str) ∧
    art !! "published" =
      Some (por (dict_get (item_fields e) "published") (VStr now)) ∧
    art !! "content" =
      Some (match scraped with
            | Ok (p :: ps) => por (VStr (join_space (take 6 (p :: ps)))) d
            | _ => d
            end).
Proof.
  unfold google_record.
  destruct (if source_truthy (item_source e) then _ else _) as [src|];
    simpl; [|done].
  intros [= <-] (Ht & Hd & Hc & Hu & Hp & Hs)%normalize_article_fields.
  eexists. split; [done|]. rewrite Hd, Hc, Hu, Hp.
  unfold description_of, content_of, source_url_of, published_of,
    description_of, dict_get, dict_get_or.
  simplify_map_eq. rewrite !por_VNone_r. repeat split.
  assert (Hsum : ∀ y, por (default empty_str (item_fields e !! "summary")) 
                     (por (default VNone (item_fields e !! "summary")) y)
                = por (default VNone (item_fields e !! "summary")) y).
  { intros y. destruct (item_fields e !! "summary") as [v|]; simpl; [|done].
    unfold por. by destruct (truthy v) eqn:E; rewrite ?E. }
  destruct scraped as [[|p ps]|]; simpl; by rewrite ?Hsum.
Qed.

Lemma google_article_fields_witness :
  google_record (scrape_two 0 VNone) item_full = Ok record_scraped ∧
  normalize_article clock0 record_scraped (VStr (py "GoogleNewsRSS"))
    = Ok article_scraped ∧
  article_scraped !! "content" = Some (VStr (py "First paragraph. Second one.")) ∧
  article_scraped !! "description" = Some (VStr (py "Fund X gained")).
Proof.
  split; [by_eval|]. split; [by_eval|].
  destruct (google_article_fields clock0 (py "GoogleNewsRSS") (scrape_two 0 VNone)
              item_full record_scraped article_scraped ltac:(by_eval) ltac:(by_eval))
    as (d & -> & Hd & _ & _ & Hc).
  split; [exact Hc | exact Hd].
Defined.

(** ** The fetch session: the source of a survivor *)




(** ** [dedupe_articles]: the order of the input *)

Lemma dedupe_same_clock now articles :
  Forall raw_ok articles →
  ∃ out,
    dedupe_articles (λ _, now) articles = Ok out ∧
    NoDup out ∧
    (∀ r, r ∈ out →
       (∃ a, a ∈ articles ∧ normalize_article now a (dict_get a "source") = Ok r) ∧
       ∀ b nb, b ∈ articles →
         normalize_article now b (dict_get b "source") = Ok nb →
         rid nb = rid r → (clen nb ≤ clen r)%nat) ∧
    (∀ a na, a ∈ articles →
       normalize_article now a (dict_get a "source") = Ok na →
       ∃ r, r ∈ out ∧ rid r = rid na).
Proof.
  intros Hok.
  destruct (dedupe_loop_spec (λ _, now) articles 0 [] [] Hok seen_inv_nil)
    as (seen & norms & Eloop & (Hnd & Hseen & Hcov) & [Hlen Hnorms]).
  simpl in *.
  assert (Hin : ∀ n, n ∈ norms →
            ∃ a, a ∈ articles ∧ normalize_article now a (dict_get a "source") = Ok n).
  { intros n [j Hj]%list_elem_of_lookup.
    assert (is_Some (articles !! j)) as [a Ha].
    { apply lookup_lt_is_Some. rewrite <- Hlen. by eapply lookup_lt_Some. }
    destruct (Hnorms j a Ha) as (n' & Hn' & En). exists a.
    split; [by eapply list_elem_of_lookup_2 | congruence]. }
  assert (Hout : ∀ a na, a ∈ articles →
            normalize_article now a (dict_get a "source") = Ok na → na ∈ norms).
  { intros a na [j Hj]%list_elem_of_lookup Ena.
    destruct (Hnorms j a Hj) as (n' & Hn' & En).
    assert (n' = na) as -> by congruence. by eapply list_elem_of_lookup_2. }
  assert (Hids : rid <$> seen.*2 = seen.*1).
  { clear -Hseen. induction seen as [|[k r] seen IH]; simpl; [done|].
    f_equal.
    - destruct (Hseen k r) as (_ & ? & _); [by left | done].
    - apply IH. intros k' r' Hin. apply Hseen. by right. }
  exists seen.*2. unfold dedupe_articles. rewrite Eloop. simpl.
  split; [done|]. split; [|split].
  - apply (NoDup_fmap_1 rid). by rewrite Hids.
  - intros r [[k r'] [-> Hr]]%list_elem_of_fmap. simpl.
    destruct (Hseen _ _ Hr) as (_ & _ & i & Hi & Hbest). split.
    + apply Hin. by eapply list_elem_of_lookup_2.
    + intros b nb Hb Enb Hrid.
      apply (Hout b nb Hb) in Enb as [j Hj]%list_elem_of_lookup.
      by destruct (Hbest j nb Hj Hrid).
  - intros a na Ha Ena. apply (Hout a na Ha), Hcov in Ena.
    rewrite <- Hids in Ena. apply list_elem_of_fmap in Ena as (r & ? & ?). eauto.
Qed.

(** X25: When the records are normalized at one clock reading and no two of them
    tie (one [id], contents of one length, different normalized forms), the
    records [dedupe_articles] returns do not depend on the order of the
    input: reordering the input only reorders the output. *)
Theorem dedupe_articles_permutation now articles articles' :
  Forall raw_ok articles → no_ties now articles → articles' ≡ₚ articles →
  ∃ out out',
    dedupe_articles (λ _, now) articles = Ok out ∧
    dedupe_articles (λ _, now) articles' = Ok out' ∧
    out' ≡ₚ out.
Proof.
  intros Hok Hties Hperm.
  assert (Hok' : Forall raw_ok articles') by by rewrite Hperm.
  destruct (dedupe_same_clock now articles Hok) as (out & E & Hnd & Hmax & Hcov).
  destruct (dedupe_same_clock now articles' Hok') as (out' & E' & Hnd' & Hmax' & Hcov').
  exists out, out'. split; [done|]. split; [done|].
  apply NoDup_Permutation; [done..|]. intros r. split.
  - intros Hr. destruct (Hmax' r Hr) as [(a & Ha & Ea) Hle'].
    rewrite Hperm in Ha.
    destruct (Hcov a r Ha Ea) as (r0 & Hr0 & Hrid).
    destruct (Hmax r0 Hr0) as [(b & Hb & Eb) Hle].
    assert (r = r0) as ->; [|done].
    apply (Hties a b); try done.
    apply Nat.le_antisymm.
    + by apply (Hle a).
    + apply (Hle' b); [by rewrite Hperm | done | done].
  - intros Hr. destruct (Hmax r Hr) as [(a & Ha & Ea) Hle].
    assert (Ha' : a ∈ articles') by by rewrite Hperm.
    destruct (Hcov' a r Ha' Ea) as (r0 & Hr0 & Hrid).
    destruct (Hmax' r0 Hr0) as [(b & Hb & Eb) Hle'].
    rewrite Hperm in Hb.
    assert (r = r0) as ->; [|done].
    apply (Hties a b); try done.
    apply Nat.le_antisymm.
    + by apply (Hle' a).
    + by apply (Hle b).
Qed.

Lemma no_ties_short_long : no_ties clock0 [raw_short; raw_long].
Proof.
  assert (Es : normalize_article clock0 raw_short (dict_get raw_short "source")
               = Ok (art_short_at clock0)) by by_eval.
  assert (El : normalize_article clock0 raw_long (dict_get raw_long "source")
               = Ok (art_long_at clock0)) by by_eval.
  assert (Hne : clen (art_short_at clock0) ≠ clen (art_long_at clock0))
    by (vm_compute; discriminate).
  intros a b na nb Ha Hb Ea Eb _ Hclen.
  apply elem_of_cons in Ha as [->|Ha]; [|apply list_elem_of_singleton in Ha as ->];
    (apply elem_of_cons in Hb as [->|Hb]; [|apply list_elem_of_singleton in Hb as ->]).
  - congruence.
  - rewrite Es in Ea. rewrite El in Eb.
    injection Ea as <-. injection Eb as <-. by destruct Hne.
  - rewrite El in Ea. rewrite Es in Eb.
    injection Ea as <-. injection Eb as <-. by destruct Hne.
  - congruence.
Qed.

Lemma dedupe_articles_permutation_witness :
  Forall raw_ok [raw_short; raw_long] ∧ no_ties clock0 [raw_short; raw_long] ∧
  [raw_long; raw_short] ≡ₚ [raw_short; raw_long] ∧
  ∃ out out',
    dedupe_articles (λ _, clock0) [raw_short; raw_long] = Ok out ∧
    dedupe_articles (λ _, clock0) [raw_long; raw_short] = Ok out' ∧
    out' ≡ₚ out.
Proof.
  assert (H : Forall raw_ok [raw_short; raw_long]).
  { repeat constructor; apply raw_okb_correct; vm_compute; reflexivity. }
  assert (Hp : [raw_long; raw_short] ≡ₚ [raw_short; raw_long]) by apply perm_swap.
  split; [exact H|]. split; [exact no_ties_short_long|]. split; [exact Hp|].
  exact (dedupe_articles_permutation clock0 _ _ H no_ties_short_long Hp).
Defined.
